(** * The CodeCommit platform adapter (lib/modules/platform/codecommit/index.ts)

    A shallow embedding of the adapter: the module-level [config] object,
    the environment, the remote service reached through [codecommit-client]
    and the call log are threaded through a small state and exception
    monad.  Every [await client.xxx(...)] of the source is one logged
    remote call that may throw; [try]/[catch] is [catch_]. *)

From Stdlib Require Import String Ascii List Bool ZArith Lia.
From Stdlib Require Import DecimalString DecimalPos.
Import ListNotations.
Open Scope string_scope.
Open Scope list_scope.

(* ------------------------------------------------------------------ *)
(** ** JavaScript values and string helpers *)

(** Truthiness of an optional string: [undefined] and [""] are falsy. *)
Definition truthy (s : option string) : bool :=
  match s with
  | Some (String _ _) => true
  | _ => false
  end.

Definition opt_string_eqb (a b : option string) : bool :=
  match a, b with
  | Some x, Some y => String.eqb x y
  | None, None => true
  | _, _ => false
  end.

(** [s.startsWith(p)] *)
Definition startsWith (p s : string) : bool := String.prefix p s.

(** [x?.startsWith(p)] is falsy when [x] is [undefined]. *)
Definition opt_startsWith (p : string) (s : option string) : bool :=
  match s with Some x => startsWith p x | None => false end.

(** ASCII part of the WhiteSpace and LineTerminator sets used by [trim]. *)
Definition is_js_space (c : ascii) : bool :=
  match nat_of_ascii c with
  | 9 | 10 | 11 | 12 | 13 | 32 => true
  | _ => false
  end.

Fixpoint drop_space (l : list ascii) : list ascii :=
  match l with
  | c :: r => if is_js_space c then drop_space r else l
  | [] => []
  end.

(** [String.prototype.trim] *)
Definition trim (s : string) : string :=
  string_of_list_ascii
    (rev (drop_space (rev (drop_space (list_ascii_of_string s))))).

(** Template literal interpolation of a number, [`${n}`].  For a safe
    integer ([|n| <= 2^53 - 1], [Number.MAX_SAFE_INTEGER]) JavaScript
    prints exactly these decimal digits; outside that range it prints the
    shortest round-trip digits of the nearest double, or exponent form from
    [1e21] up, which this definition does not follow: statements that look
    inside the printed text are restricted to safe integers. *)
Definition num_to_string (n : Z) : string :=
  NilZero.string_of_int (Z.to_int n).

(** [Number.parseInt(s)] with no radix: leading white space, a sign, a
    ["0x"] prefix selecting radix 16, then the longest digit prefix;
    [None] stands for [NaN]. *)
Definition digit_val (radix : Z) (c : ascii) : option Z :=
  let n := Z.of_nat (nat_of_ascii c) in
  let v :=
    if (48 <=? n)%Z && (n <=? 57)%Z then Some (n - 48)%Z
    else if (97 <=? n)%Z && (n <=? 122)%Z then Some (n - 87)%Z
    else if (65 <=? n)%Z && (n <=? 90)%Z then Some (n - 55)%Z
    else None in
  match v with
  | Some d => if (d <? radix)%Z then Some d else None
  | None => None
  end.

Fixpoint parse_digits (radix acc : Z) (l : list ascii) : Z :=
  match l with
  | c :: r =>
      match digit_val radix c with
      | Some d => parse_digits radix (acc * radix + d)%Z r
      | None => acc
      end
  | [] => acc
  end.

Definition parse_unsigned (l : list ascii) : option Z :=
  let '(radix, l') :=
    match l with
    | "0"%char :: ("x"%char | "X"%char) :: r => (16%Z, r)
    | _ => (10%Z, l)
    end in
  match l' with
  | c :: _ =>
      match digit_val radix c with
      | Some _ => Some (parse_digits radix 0%Z l')
      | None => None
      end
  | [] => None
  end.

Definition parseInt (s : string) : option Z :=
  match drop_space (list_ascii_of_string s) with
  | "-"%char :: r => option_map Z.opp (parse_unsigned r)
  | "+"%char :: r => parse_unsigned r
  | l => parse_unsigned l
  end.

(* ------------------------------------------------------------------ *)
(** ** Types of the adapter ([../types], [../../../types]) *)

Inductive PrState := Merged | Open | Closed | All | NotOpen.

Definition PrState_eqb (a b : PrState) : bool :=
  match a, b with
  | Merged, Merged | Open, Open | Closed, Closed
  | All, All | NotOpen, NotOpen => true
  | _, _ => false
  end.

(** [Pr]; [number] is a JS number, [None] standing for [NaN]; the string
    fields carry the [!]-asserted values, which may be [undefined]. *)
Record Pr := mkPr {
  number : option Z;
  sourceBranch : option string;
  targetBranch : option string;
  title : option string;
  state : PrState;
  sha : option string;
  sourceRepo : option string;
}.

Inductive MergeStrategy := Auto | FastForward | MergeCommit | Rebase | Squash.

(** [PullRequestStatusEnum] *)
Definition OPEN : string := "OPEN".
Definition CLOSED : string := "CLOSED".

(** ** Shapes of the remote responses (@aws-sdk/client-codecommit) *)

Record MergeMetadata := mkMergeMetadata { isMerged : option bool }.

Record PullRequestTarget := mkTarget {
  repositoryName : option string;
  sourceReference : option string;
  destinationReference : option string;
  mergeMetadata : option MergeMetadata;
}.

Record PullRequest := mkPullRequest {
  pullRequestId : option string;
  pr_title : option string;
  pullRequestStatus : option string;
  pullRequestTargets : option (list PullRequestTarget);
  revisionId : option string;
}.

Record Comment := mkComment {
  commentId : option string;
  content : option string;
}.

(** One element of [commentsForPullRequestData]: its [comments]. *)
Record CommentsObj := mkCommentsObj { comments : option (list Comment) }.

Record SourceRefUpdated := mkSourceRefUpdated {
  beforeCommitId : option string;
  afterCommitId : option string;
}.

Record PullRequestEvent := mkEvent {
  pullRequestSourceReferenceUpdatedEventMetadata : option SourceRefUpdated;
}.

(** Answer of the IAM [GetUserCommand]: the user's ARN, or an error
    carrying its message. *)
Inductive IamAnswer := IamUser (arn : option string) | IamError (message : string).

(* ------------------------------------------------------------------ *)
(** ** Remote calls, the remote service and the session state *)

Inductive Call :=
  | CListPullRequests (repo arn : option string)
  | CGetPr (prId : string)
  | CGetPrComments (repo : option string) (prNo : string)
  | CGetPrEvents (prNo : string)
  | CCreatePrComment (prNo : string) (repo : option string) (body before after : string)
  | CUpdateComment (id body : string)
  | CDeleteComment (id : string)
  | CSquashMerge (repo src dst ttl : option string)
  | CFastForwardMerge (repo src dst : option string)
  | CUpdatePrStatus (prNo status : string)
  | CUpdatePrDescription (prNo description : string)
  | CUpdatePrTitle (prNo ttl : string)
  | CCreatePr (ttl : option string) (description : string) (src dst repo : option string)
  | CGetUser.

Inductive Kind :=
  | KListPullRequests | KGetPr | KGetPrComments | KGetPrEvents
  | KCreatePrComment | KUpdateComment | KDeleteComment | KSquashMerge
  | KFastForwardMerge | KUpdatePrStatus | KUpdatePrDescription
  | KUpdatePrTitle | KCreatePr | KGetUser.

Definition kind_of (c : Call) : Kind :=
  match c with
  | CListPullRequests _ _ => KListPullRequests
  | CGetPr _ => KGetPr
  | CGetPrComments _ _ => KGetPrComments
  | CGetPrEvents _ => KGetPrEvents
  | CCreatePrComment _ _ _ _ _ => KCreatePrComment
  | CUpdateComment _ _ => KUpdateComment
  | CDeleteComment _ => KDeleteComment
  | CSquashMerge _ _ _ _ => KSquashMerge
  | CFastForwardMerge _ _ _ => KFastForwardMerge
  | CUpdatePrStatus _ _ => KUpdatePrStatus
  | CUpdatePrDescription _ _ => KUpdatePrDescription
  | CUpdatePrTitle _ _ => KUpdatePrTitle
  | CCreatePr _ _ _ _ _ => KCreatePr
  | CGetUser => KGetUser
  end.

Scheme Equality for Kind.

(** The remote service.  [r_listResp] is the [ListPullRequests] answer
    ([None]: no response, [Some None]: no [pullRequestIds]); [r_prs] maps
    identifiers to [GetPullRequest] answers ([None]: no [pullRequest]);
    [r_comments] and [r_events] hold the comment threads and the events of
    each PR; [r_fail] lists the endpoints that currently throw; [r_next]
    numbers the objects the service creates. *)
Record Remote := mkRemote {
  r_listResp : option (option (list string));
  r_prs : list (string * option PullRequest);
  r_comments : list (string * list CommentsObj);
  r_events : list (string * list PullRequestEvent);
  r_iam : IamAnswer;
  r_fail : list Kind;
  r_next : nat;
}.

Record Credentials := mkCredentials {
  accessKeyId : string;
  secretAccessKey : string;
  sessionToken : option string;
}.

(** [interface Config] *)
Record Config := mkConfig {
  repository : option string;
  defaultBranch : option string;
  region : option string;
  prList : option (list Pr);
  credentials : option Credentials;
  userArn : option string;
}.

Record Env := mkEnv {
  AWS_ACCESS_KEY_ID : option string;
  AWS_SECRET_ACCESS_KEY : option string;
  AWS_REGION : option string;
  AWS_SESSION_TOKEN : option string;
}.

(** The whole session: the module's [config], [process.env], the secrets
    registered for [sanitize], the remote service and the calls issued. *)
Record World := mkWorld {
  cfg : Config;
  env : Env;
  secrets : list string;
  remote : Remote;
  calls : list Call;
}.

Inductive Err :=
  | ErrMessage (msg : string)   (* [throw new Error(msg)] *)
  | ErrRemote (k : Kind)        (* a rejected remote call *)
  | ErrType.                    (* a TypeError on [undefined] *)

Inductive Result (A : Type) := Ok (a : A) | Throw (e : Err).
Arguments Ok {A} a.
Arguments Throw {A} e.

(* ------------------------------------------------------------------ *)
(** ** The state and exception monad *)

Definition M (A : Type) := World -> Result A * World.

Definition ret {A} (a : A) : M A := fun w => (Ok a, w).

Definition bind {A B} (m : M A) (k : A -> M B) : M B :=
  fun w => match m w with
           | (Ok a, w') => k a w'
           | (Throw e, w') => (Throw e, w')
           end.

Definition throw {A} (e : Err) : M A := fun w => (Throw e, w).

(** [try { m } catch (err) { h err }] *)
Definition catch_ {A} (m : M A) (h : Err -> M A) : M A :=
  fun w => match m w with
           | (Throw e, w') => h e w'
           | r => r
           end.

Definition get_world : M World := fun w => (Ok w, w).
Definition modify_cfg (f : Config -> Config) : M unit :=
  fun w => (Ok tt, mkWorld (f (cfg w)) (env w) (secrets w) (remote w) (calls w)).

Notation "x <- m ;; k" := (bind m (fun x => k))
  (at level 61, m at next level, right associativity).
Notation "m ;;; k" := (bind m (fun _ => k))
  (at level 61, right associativity).

Definition get_cfg : M Config := fun w => (Ok (cfg w), w).
Definition get_env : M Env := fun w => (Ok (env w), w).
Definition get_secrets : M (list string) := fun w => (Ok (secrets w), w).

Definition set_prList (l : option (list Pr)) (c : Config) : Config :=
  mkConfig (repository c) (defaultBranch c) (region c) l (credentials c) (userArn c).

(* ------------------------------------------------------------------ *)
(** ** The remote service ([./codecommit-client], [./iam-client]'s [iam]) *)

Fixpoint assoc {B} (k : string) (l : list (string * B)) : option B :=
  match l with
  | (k', v) :: r => if String.eqb k k' then Some v else assoc k r
  | [] => None
  end.

(** Replace the entry of [k] with [f] of it, or append [f d] if there is none. *)
Fixpoint assoc_upd {B} (k : string) (f : B -> B) (d : B) (l : list (string * B))
  : list (string * B) :=
  match l with
  | (k', v) :: r => if String.eqb k k' then (k', f v) :: r else (k', v) :: assoc_upd k f d r
  | [] => [(k, f d)]
  end.

Definition with_remote (w : World) (r : Remote) (cs : list Call) : World :=
  mkWorld (cfg w) (env w) (secrets w) r cs.

Definition failing (r : Remote) (k : Kind) : bool := existsb (Kind_beq k) (r_fail r).

(** Issue the remote call [c]: it is logged; it rejects when its endpoint
    is failing, otherwise [answer] gives the response and the service's new
    state. *)
Definition remote_call {A} (c : Call) (answer : Remote -> A * Remote) : M A :=
  fun w =>
    let cs := calls w ++ [c] in
    if failing (remote w) (kind_of c)
    then (Throw (ErrRemote (kind_of c)), with_remote w (remote w) cs)
    else let '(a, r') := answer (remote w) in (Ok a, with_remote w r' cs).

Definition upd_remote_prs (f : list (string * option PullRequest) -> list (string * option PullRequest))
  (r : Remote) : Remote :=
  mkRemote (r_listResp r) (f (r_prs r)) (r_comments r) (r_events r) (r_iam r) (r_fail r) (r_next r).

Definition upd_remote_comments (f : list (string * list CommentsObj) -> list (string * list CommentsObj))
  (r : Remote) : Remote :=
  mkRemote (r_listResp r) (r_prs r) (f (r_comments r)) (r_events r) (r_iam r) (r_fail r) (r_next r).

Definition bump (r : Remote) : Remote :=
  mkRemote (r_listResp r) (r_prs r) (r_comments r) (r_events r) (r_iam r) (r_fail r) (S (r_next r)).

Definition fresh_id (r : Remote) : string := num_to_string (Z.of_nat (r_next r)).

Definition map_comments (f : Comment -> Comment) (o : CommentsObj) : CommentsObj :=
  mkCommentsObj (option_map (map f) (comments o)).

Definition client_listPullRequests (repo arn : option string) : M (option (option (list string))) :=
  remote_call (CListPullRequests repo arn) (fun r => (r_listResp r, r)).

Definition client_getPr (prId : string) : M (option (option PullRequest)) :=
  remote_call (CGetPr prId) (fun r => (assoc prId (r_prs r), r)).

(** [commentsForPullRequestData] of the answer ([None] when absent). *)
Definition client_getPrComments (repo : option string) (prNo : string)
  : M (option (list CommentsObj)) :=
  remote_call (CGetPrComments repo prNo) (fun r => (assoc prNo (r_comments r), r)).

(** [pullRequestEvents] of the answer ([None] when absent). *)
Definition client_getPrEvents (prNo : string) : M (option (list PullRequestEvent)) :=
  remote_call (CGetPrEvents prNo) (fun r => (assoc prNo (r_events r), r)).

(** A new thread holding one comment with [body] is appended to the PR's threads. *)
Definition client_createPrComment (prNo : string) (repo : option string)
  (body before after : string) : M unit :=
  remote_call (CCreatePrComment prNo repo body before after)
    (fun r =>
       let th := mkCommentsObj (Some [mkComment (Some (fresh_id r)) (Some body)]) in
       (tt, bump (upd_remote_comments (assoc_upd prNo (fun ts => ts ++ [th]) []) r))).

Definition client_updateComment (id body : string) : M unit :=
  remote_call (CUpdateComment id body)
    (fun r =>
       let f c := if opt_string_eqb (commentId c) (Some id)
                  then mkComment (commentId c) (Some body) else c in
       (tt, upd_remote_comments (map (fun '(k, ts) => (k, map (map_comments f) ts))) r)).

Definition client_deleteComment (id : string) : M unit :=
  remote_call (CDeleteComment id)
    (fun r =>
       let f c := if opt_string_eqb (commentId c) (Some id)
                  then mkComment (commentId c) None else c in
       (tt, upd_remote_comments (map (fun '(k, ts) => (k, map (map_comments f) ts))) r)).

Definition client_squashMerge (repo src dst ttl : option string) : M unit :=
  remote_call (CSquashMerge repo src dst ttl) (fun r => (tt, r)).

Definition client_fastForwardMerge (repo src dst : option string) : M unit :=
  remote_call (CFastForwardMerge repo src dst) (fun r => (tt, r)).

Definition set_status (st : string) (p : PullRequest) : PullRequest :=
  mkPullRequest (pullRequestId p) (pr_title p) (Some st) (pullRequestTargets p) (revisionId p).

(** [response.pullRequest?.pullRequestStatus] of the answer. *)
Definition client_updatePrStatus (prNo status : string) : M (option string) :=
  remote_call (CUpdatePrStatus prNo status)
    (fun r => (Some status,
               upd_remote_prs (map (fun '(k, p) =>
                 if String.eqb k prNo then (k, option_map (set_status status) p) else (k, p))) r)).

Definition client_updatePrDescription (prNo description : string) : M unit :=
  remote_call (CUpdatePrDescription prNo description) (fun r => (tt, r)).

Definition client_updatePrTitle (prNo ttl : string) : M unit :=
  remote_call (CUpdatePrTitle prNo ttl)
    (fun r => (tt, upd_remote_prs (map (fun '(k, p) =>
       if String.eqb k prNo
       then (k, option_map (fun q => mkPullRequest (pullRequestId q) (Some ttl)
                 (pullRequestStatus q) (pullRequestTargets q) (revisionId q)) p)
       else (k, p))) r)).

(** The service registers the new PR under a fresh identifier and lists it. *)
Definition client_createPr (ttl : option string) (description : string)
  (src dst repo : option string) : M (option PullRequest) :=
  remote_call (CCreatePr ttl description src dst repo)
    (fun r =>
       let id := fresh_id r in
       let p := mkPullRequest (Some id) ttl (Some OPEN)
                  (Some [mkTarget repo src dst None]) None in
       (Some p,
        bump (mkRemote
                (match r_listResp r with
                 | Some (Some ids) => Some (Some (ids ++ [id]))
                 | o => o
                 end)
                (r_prs r ++ [(id, Some p)]) (r_comments r) (r_events r)
                (r_iam r) (r_fail r) (r_next r)))).

(** [iam.send(new GetUserCommand({}))]; an [IamError] answer rejects. *)
Definition iam_getUser : M IamAnswer :=
  remote_call CGetUser (fun r => (r_iam r, r)).

(* ------------------------------------------------------------------ *)
(** ** Utilities of the repository used by the adapter *)

Fixpoint replace_all_fuel (fuel : nat) (pat rep l : list ascii) : list ascii :=
  match fuel with
  | O => l
  | S f =>
      match l with
      | [] => []
      | c :: r =>
          if String.prefix (string_of_list_ascii pat) (string_of_list_ascii l)
          then rep ++ replace_all_fuel f pat rep (skipn (length pat) l)
          else c :: replace_all_fuel f pat rep r
      end
  end.

(** [s.replace(regEx(escapeRegExp(pat), 'g'), rep)] for a non-empty [pat]. *)
Definition replace_all (pat rep s : string) : string :=
  match pat with
  | EmptyString => s
  | _ => string_of_list_ascii
           (replace_all_fuel (String.length s) (list_ascii_of_string pat)
              (list_ascii_of_string rep) (list_ascii_of_string s))
  end.

(** Modelled from the spec: [sanitize] of [util/sanitize], which is not
    under src/: the content is sanitized before it is sent; as in that
    utility, every registered secret is replaced by a redaction marker,
    and an empty input is returned as it is. *)
Definition sanitize (secrets : list string) (input : string) : string :=
  match input with
  | EmptyString => input
  | _ => fold_left (fun out sec => replace_all sec "**redacted**" out) secrets input
  end.

(** Modelled from the spec: [smartTruncate] of [../utils/pr-body], which
    is not under src/: the text is truncated to the given budget. *)
Definition smartTruncate (input : string) (len : nat) : string :=
  if Nat.ltb (String.length input) len then input else substring 0 len input.

(** Modelled from the spec: [getNewBranchName] of [../util], which is not
    under src/: the branch name is prefixed with the branch-ref namespace
    [refs/heads/] unless it already starts with it. *)
Definition getNewBranchName (branchName : string) : string :=
  if truthy (Some branchName) && negb (startsWith "refs/heads/" branchName)
  then "refs/heads/" ++ branchName
  else branchName.

(* ------------------------------------------------------------------ *)
(** ** The PR directory: [getPrList], [findPr], [getPr] *)

(** [prInfo.pullRequestTargets![0]]: a TypeError when there is no target. *)
Definition first_target (prInfo : PullRequest) : M PullRequestTarget :=
  match pullRequestTargets prInfo with
  | Some (t :: _) => ret t
  | _ => throw ErrType
  end.

Definition raw_is_open (prInfo : PullRequest) : bool :=
  opt_string_eqb (pullRequestStatus prInfo) (Some OPEN).

(** [mergeMetadata?.isMerged] is [true]. *)
Definition is_merged (t : PullRequestTarget) : bool :=
  match mergeMetadata t with
  | Some m => match isMerged m with Some true => true | _ => false end
  | None => false
  end.

(** The [for (const prId of prIds)] loop of [getPrList]. *)
Fixpoint fetch_prs (prIds : list string) (fetchedPrs : list Pr) : M (list Pr) :=
  match prIds with
  | [] => ret fetchedPrs
  | prId :: rest =>
      prRes <- client_getPr prId ;;
      match prRes with
      | Some (Some prInfo) =>
          t <- first_target prInfo ;;
          let pr := mkPr (parseInt prId) (sourceReference t) (destinationReference t)
                      (pr_title prInfo)
                      (if raw_is_open prInfo then Open else Closed) None None in
          fetch_prs rest (fetchedPrs ++ [pr])
      | _ => fetch_prs rest fetchedPrs
      end
  end.

Definition getPrList : M (list Pr) :=
  c <- get_cfg ;;
  match prList c with
  | Some l => ret l
  | None =>
      listPrsResponse <- client_listPullRequests (repository c) (userArn c) ;;
      match listPrsResponse with
      | Some None => ret []
      | _ =>
          let prIds := match listPrsResponse with Some (Some ids) => ids | _ => [] end in
          fetchedPrs <- fetch_prs prIds [] ;;
          modify_cfg (set_prList (Some fetchedPrs)) ;;;
          ret fetchedPrs
      end
  end.

(** The [switch (state)] of [findPr]. *)
Definition filter_state (st : PrState) (prs : list Pr) : list Pr :=
  match st with
  | All => prs
  | NotOpen => filter (fun item => negb (PrState_eqb (state item) Open)) prs
  | _ => filter (fun item => PrState_eqb (state item) Open) prs
  end.

(** [findPr({branchName, prTitle, state})]; [state] defaults to [All]. *)
Definition findPr (branchName : string) (prTitle : option string) (st : PrState)
  : M (option Pr) :=
  prsFiltered <-
    catch_
      (prs <- getPrList ;;
       let refsHeadBranchName := getNewBranchName branchName in
       let f1 := filter (fun item => opt_string_eqb (sourceBranch item)
                                       (Some refsHeadBranchName)) prs in
       let f2 := if truthy prTitle
                 then filter (fun item => opt_string_eqb (title item) prTitle) f1
                 else f1 in
       ret (filter_state st f2))
      (fun _ => ret []) ;;
  ret (hd_error prsFiltered).

(** The derived state of [getPr]. *)
Definition derived_state (prInfo : PullRequest) (t : PullRequestTarget) : PrState :=
  if is_merged t then Merged
  else if raw_is_open prInfo then Open else Closed.

Definition getPr (pullRequestId : Z) : M (option Pr) :=
  prRes <- client_getPr (num_to_string pullRequestId) ;;
  match prRes with
  | Some (Some prInfo) =>
      t <- first_target prInfo ;;
      let prState := derived_state prInfo t in
      ret (Some (mkPr (Some pullRequestId) (sourceReference t) (destinationReference t)
                  (pr_title prInfo) prState (revisionId prInfo) None))
  | _ => ret None
  end.

(* ------------------------------------------------------------------ *)
(** ** [createPr] and [updatePr] *)

Definition PR_BODY_LIMIT : nat := 10239.

Definition createPr (sourceBranch targetBranch : string) (ttl : option string)
  (body : string) : M Pr :=
  s <- get_secrets ;;
  c <- get_cfg ;;
  let description := smartTruncate (sanitize s body) PR_BODY_LIMIT in
  prCreateRes <- client_createPr ttl (sanitize s description) (Some sourceBranch)
                   (Some targetBranch) (repository c) ;;
  match prCreateRes with
  | Some p =>
      match pr_title p, pullRequestId p with
      | Some (String _ _ as t), Some (String _ _ as id) =>
          ret (mkPr (parseInt id) (Some sourceBranch) (Some targetBranch) (Some t)
                 Open None (repository c))
      | _, _ => throw (ErrMessage "Could not create pr, missing PR info")
      end
  | None => throw (ErrMessage "Could not create pr, missing PR info")
  end.

(** [if (x) { ... }] on an optional string. *)
Definition when_truthy (o : option string) (k : string -> M unit) : M unit :=
  match o with
  | Some (String _ _ as x) => k x
  | _ => ret tt
  end.

(** [updatePr({number, prTitle, prBody, state})] *)
Definition updatePr (prNo : Z) (ttl body : option string) (st : option PrState) : M unit :=
  s <- get_secrets ;;
  when_truthy body (fun b =>
    client_updatePrDescription (num_to_string prNo)
      (smartTruncate (sanitize s b) PR_BODY_LIMIT)) ;;;
  when_truthy ttl (fun t => client_updatePrTitle (num_to_string prNo) t) ;;;
  let prStatusInput := match st with Some Closed => CLOSED | _ => OPEN end in
  catch_ (client_updatePrStatus (num_to_string prNo) prStatusInput ;;; ret tt)
         (fun _ => ret tt).

(* ------------------------------------------------------------------ *)
(** ** [mergePr] *)

(** [x?.f] *)
Definition opt_bind {A B} (o : option A) (f : A -> option B) : option B :=
  match o with Some a => f a | None => None end.

(** [targets[0]]: reading a field of it is a TypeError when it is absent. *)
Definition target0 (targets : list PullRequestTarget) : M PullRequestTarget :=
  match targets with
  | t :: _ => ret t
  | [] => throw ErrType
  end.

Definition mergePr (branchName : option string) (prNo : Z)
  (strategy : option MergeStrategy) : M bool :=
  prOut <- client_getPr (num_to_string prNo) ;;
  match prOut with
  | None => ret false
  | Some pReq =>
      match opt_bind pReq pullRequestTargets with
      | None => ret false
      | Some targets =>
          match strategy with
          | Some Rebase => ret false
          | _ =>
              merged <-
                catch_
                  (match strategy with
                   | Some Auto | Some Squash =>
                       t <- target0 targets ;;
                       client_squashMerge (repositoryName t) (sourceReference t)
                         (destinationReference t) (opt_bind pReq pr_title) ;;;
                       ret true
                   | Some FastForward =>
                       t <- target0 targets ;;
                       client_fastForwardMerge (repositoryName t) (sourceReference t)
                         (destinationReference t) ;;;
                       ret true
                   | _ => ret false
                   end)
                  (fun _ => ret false) ;;
              if negb merged then ret false
              else
                catch_
                  (response <- client_updatePrStatus (num_to_string prNo) CLOSED ;;
                   (* a status other than CLOSED is only logged *)
                   ret true)
                  (fun _ => ret false)
          end
      end
  end.

(* ------------------------------------------------------------------ *)
(** ** [ensureComment] and [ensureCommentRemoval] *)

Definition nl : string := String (ascii_of_nat 10) EmptyString.

(** [topic ? `### ${topic}\n\n` : ''] *)
Definition comment_header (topic : option string) : string :=
  match topic with
  | Some (String _ _ as t) => "### " ++ t ++ nl ++ nl
  | _ => ""
  end.

(** Outcome of the [for (const commentObj of ...)] loop of [ensureComment]. *)
Inductive Scan :=
  | ScanNone
  | ScanFound (id : option string) (needsUpdating : bool)
  | ScanTypeError.

Fixpoint scan_threads (topic : option string) (header body : string)
  (data : list CommentsObj) : Scan :=
  match data with
  | [] => ScanNone
  | commentObj :: rest =>
      match comments commentObj with
      | None => scan_threads topic header body rest
      | Some [] => ScanTypeError
      | Some (c0 :: _) =>
          let firstCommentContent := content c0 in
          if (truthy topic && opt_startsWith header firstCommentContent)
             || (negb (truthy topic) && opt_string_eqb firstCommentContent (Some body))
          then ScanFound (commentId c0)
                 (negb (opt_string_eqb firstCommentContent (Some body)))
          else scan_threads topic header body rest
      end
  end.

Definition ensureComment (number : Z) (topic : option string) (content : string) : M bool :=
  s <- get_secrets ;;
  c <- get_cfg ;;
  let header := comment_header topic in
  let body := (header ++ sanitize s content)%string in
  prCommentsResponse <-
    catch_ (r <- client_getPrComments (repository c) (num_to_string number) ;; ret (Some r))
           (fun _ => ret None) ;;
  match prCommentsResponse with
  | None => ret false
  | Some None => ret false
  | Some (Some data) =>
      match scan_threads topic header body data with
      | ScanTypeError => throw ErrType
      | sr =>
          let '(commentId, commentNeedsUpdating) :=
            match sr with ScanFound i u => (i, u) | _ => (None, false) end in
          if negb (truthy commentId) then
            prEvent <- client_getPrEvents (num_to_string number) ;;
            match prEvent with
            | None => ret false
            | Some [] => throw ErrType
            | Some (ev :: _) =>
                match pullRequestSourceReferenceUpdatedEventMetadata ev with
                | Some (mkSourceRefUpdated (Some (String _ _ as before))
                                           (Some (String _ _ as after))) =>
                    client_createPrComment (num_to_string number) (repository c)
                      body before after ;;;
                    ret true
                | _ => ret false
                end
            end
          else if commentNeedsUpdating then
            match commentId with
            | Some id => client_updateComment id body ;;; ret true
            | None => ret true
            end
          else ret true
      end
  end.

(** [EnsureCommentRemovalConfig]: [{type: 'by-topic'}] or [{type: 'by-content'}]. *)
Inductive RemovalConfig :=
  | ByTopic (prNo : Z) (topic : string)
  | ByContent (prNo : Z) (content : string).

Definition removal_prNo (k : RemovalConfig) : Z :=
  match k with ByTopic n _ => n | ByContent n _ => n end.

Definition removal_matches (k : RemovalConfig) (comment : Comment) : bool :=
  match k with
  | ByTopic _ t => opt_startsWith ("### " ++ t ++ nl ++ nl) (content comment)
  | ByContent _ ct =>
      match content comment with Some x => String.eqb ct (trim x) | None => false end
  end.

(** The nested loops of [ensureCommentRemoval]: in each thread the first
    matching comment is taken; it is deleted when its id is truthy, and
    the scan goes on to the next thread otherwise. *)
Fixpoint removal_target (k : RemovalConfig) (data : list CommentsObj) : option string :=
  match data with
  | [] => None
  | commentObj :: rest =>
      match comments commentObj with
      | None => removal_target k rest
      | Some cs =>
          match find (removal_matches k) cs with
          | Some cm => if truthy (commentId cm) then commentId cm else removal_target k rest
          | None => removal_target k rest
          end
      end
  end.

Definition ensureCommentRemoval (k : RemovalConfig) : M unit :=
  c <- get_cfg ;;
  prCommentsResponse <-
    catch_ (r <- client_getPrComments (repository c) (num_to_string (removal_prNo k)) ;;
            ret (Some r))
           (fun _ => ret None) ;;
  match prCommentsResponse with
  | Some (Some data) =>
      match removal_target k data with
      | Some id => client_deleteComment id
      | None => ret tt
      end
  | _ => ret tt
  end.

(* ------------------------------------------------------------------ *)
(** ** [initPlatform] and [getUserArn] *)

Fixpoint find_map {A B} (f : A -> option B) (l : list A) : option B :=
  match l with
  | [] => None
  | x :: r => match f x with Some y => Some y | None => find_map f r end
  end.

Definition lprefix (p : string) (l : list ascii) : bool :=
  String.prefix p (string_of_list_ascii l).

(** [.] of a regular expression: anything but a line terminator. *)
Definition is_line_terminator (c : ascii) : bool :=
  Nat.eqb (nat_of_ascii c) 10 || Nat.eqb (nat_of_ascii c) 13.

(** Length of the longest prefix matched by [.*]. *)
Fixpoint dot_run (l : list ascii) : nat :=
  match l with
  | c :: r => if is_line_terminator c then 0 else S (dot_run r)
  | [] => 0
  end.

(** A match of [/.*codecommit\.(?<region>.+)\.amazonaws\.com/] starting at
    the head of [l], tried in the backtracking order of the greedy [.*] and
    [.+]; the result is the [region] group. *)
Definition region_match_at (l : list ascii) : option (list ascii) :=
  find_map
    (fun i =>
       let s1 := skipn i l in
       if lprefix "codecommit." s1 then
         let r := skipn 11 s1 in
         find_map
           (fun j => if lprefix ".amazonaws.com" (skipn j r) then Some (firstn j r) else None)
           (rev (seq 1 (dot_run r)))
       else None)
    (rev (seq 0 (S (dot_run l)))).

(** [regionReg.exec(endpoint)?.groups?.region]: the leftmost match. *)
Definition parse_region (endpoint : string) : option string :=
  let l := list_ascii_of_string endpoint in
  option_map string_of_list_ascii
    (find_map (fun p => region_match_at (skipn p l)) (seq 0 (S (length l)))).

Fixpoint space_run (l : list ascii) : nat :=
  match l with
  | c :: r => if is_js_space c then S (space_run r) else 0
  | [] => 0
  end.

Fixpoint nonspace_prefix (l : list ascii) : list ascii :=
  match l with
  | c :: r => if Nat.eqb (nat_of_ascii c) 32 then [] else c :: nonspace_prefix r
  | [] => []
  end.

(** The [arn] group of [/User:\s*(?<arn>[^ ]+).*/] after one ["User:"]. *)
Definition arn_after (r : list ascii) : option (list ascii) :=
  find_map
    (fun k => match nonspace_prefix (skipn k r) with [] => None | a => Some a end)
    (rev (seq 0 (S (space_run r)))).

Fixpoint user_re_exec (l : list ascii) : option (list ascii) :=
  match l with
  | [] => None
  | _ :: r =>
      match (if lprefix "User:" l then arn_after (skipn 5 l) else None) with
      | Some a => Some a
      | None => user_re_exec r
      end
  end.

(** [getUserArn] of [./iam-client]: the ARN of the answer, else the one
    named in the error message, else the error is rethrown. *)
Definition getUserArn : M string :=
  res <- catch_ (ans <- iam_getUser ;;
                 match ans with
                 | IamUser arn => ret (inr arn)
                 | IamError msg => ret (inl (Some msg))
                 end)
                (fun _ => ret (inl None)) ;;
  match res with
  | inr arn => ret (match arn with Some a => a | None => "" end)
  | inl msg =>
      match opt_bind msg (fun m => user_re_exec (list_ascii_of_string m)) with
      | Some arn => ret (string_of_list_ascii arn)
      | None =>
          match msg with
          | Some m => throw (ErrMessage m)
          | None => throw (ErrRemote KGetUser)
          end
      end
  end.

Definition init_error : string :=
  "Init: You must configure a AWS user(accessKeyId), password(secretAccessKey) and endpoint/AWS_REGION".

Record PlatformResult := mkPlatformResult { result_endpoint : string }.

Definition set_region (r : option string) (c : Config) : Config :=
  mkConfig (repository c) (defaultBranch c) r (prList c) (credentials c) (userArn c).
Definition set_credentials (cr : option Credentials) (c : Config) : Config :=
  mkConfig (repository c) (defaultBranch c) (region c) (prList c) cr (userArn c).
Definition set_userArn (a : option string) (c : Config) : Config :=
  mkConfig (repository c) (defaultBranch c) (region c) (prList c) (credentials c) a.

Definition or_empty (o : option string) : string :=
  match o with Some x => x | None => "" end.

(** [initPlatform({endpoint, username, password})]; [initIamClient] and
    [buildCodeCommitClient] only build the SDK clients, which here are the
    remote service itself. *)
Definition initPlatform (endpoint username password : option string) : M PlatformResult :=
  e <- get_env ;;
  let accessKeyId := if truthy username then username else AWS_ACCESS_KEY_ID e in
  let secretAccessKey := if truthy password then password else AWS_SECRET_ACCESS_KEY e in
  let region :=
    if truthy endpoint then opt_bind endpoint parse_region else AWS_REGION e in
  if negb (truthy accessKeyId) || negb (truthy secretAccessKey) || negb (truthy region)
  then throw (ErrMessage init_error)
  else
    let rg := or_empty region in
    modify_cfg (set_region (Some rg)) ;;;
    let creds := mkCredentials (or_empty accessKeyId) (or_empty secretAccessKey)
                   (AWS_SESSION_TOKEN e) in
    modify_cfg (set_credentials (Some creds)) ;;;
    arn <- getUserArn ;;
    modify_cfg (set_userArn (Some arn)) ;;;
    ret (mkPlatformResult
           (match endpoint with
            | Some ep => ep
            | None => "https://git-codecommit." ++ rg ++ ".amazonaws.com/"
            end)).

(* ------------------------------------------------------------------ *)
(** ** Concrete sessions *)

Definition empty_cfg : Config := mkConfig (Some "someRepo") None None None None (Some "arn").
Definition no_env : Env := mkEnv None None None None.

Definition mk_world (c : Config) (r : Remote) : World := mkWorld c no_env [] r [].

Definition run {A} (m : M A) (w : World) : Result A * World := m w.
Definition result_of {A} (m : M A) (w : World) : Result A := fst (m w).
Definition calls_of {A} (m : M A) (w : World) : list Call := calls (snd (m w)).

(** Section 8's scenario: one open PR from [refs/heads/feature]. *)
Definition feature_pr : PullRequest :=
  mkPullRequest (Some "1") (Some "Update dep") (Some OPEN)
    (Some [mkTarget (Some "someRepo") (Some "refs/heads/feature") (Some "refs/heads/main") None])
    (Some "rev1").

Definition scenario_remote : Remote :=
  mkRemote (Some (Some ["1"])) [("1", Some feature_pr)] [] [] (IamUser (Some "arn")) [] 100.

(** A PR that was merged and then closed, as CodeCommit reports it. *)
Definition merged_pr : PullRequest :=
  mkPullRequest (Some "5") (Some "Update dep") (Some CLOSED)
    (Some [mkTarget (Some "someRepo") (Some "refs/heads/feature") (Some "refs/heads/main")
             (Some (mkMergeMetadata (Some true)))])
    (Some "rev5").

Definition merged_remote : Remote :=
  mkRemote (Some (Some ["5"])) [("5", Some merged_pr)] [] [] (IamUser (Some "arn")) [] 100.

(** The PR list of C3's scenario, cached after a first listing. *)
Definition closed_pr_b : Pr :=
  mkPr (Some 3%Z) (Some "refs/heads/b") (Some "refs/heads/main") (Some "t") Closed None None.
Definition open_pr_b : Pr :=
  mkPr (Some 4%Z) (Some "refs/heads/b") (Some "refs/heads/main") (Some "t") Open None None.

Definition cached_world (l : list Pr) : World :=
  mk_world (set_prList (Some l) empty_cfg) scenario_remote.

(** The listing [getPrList] produces: each identifier whose record is
    present becomes a PR whose state comes from the raw status alone and
    which carries no sha. *)
Definition listed_translation (prs : list (string * option PullRequest)) (ids : list string)
  : list Pr :=
  flat_map
    (fun id =>
       match assoc id prs with
       | Some (Some p) =>
           match pullRequestTargets p with
           | Some (t :: _) =>
               [mkPr (parseInt id) (sourceReference t) (destinationReference t) (pr_title p)
                  (if opt_string_eqb (pullRequestStatus p) (Some "OPEN") then Open else Closed)
                  None None]
           | _ => []
           end
       | _ => []
       end) ids.

(** Every record present for the listed identifiers has a target. *)
Definition records_have_targets (prs : list (string * option PullRequest)) (ids : list string)
  : Prop :=
  Forall (fun id => match assoc id prs with
                    | Some (Some p) => exists t rest, pullRequestTargets p = Some (t :: rest)
                    | _ => True
                    end) ids.

(** A remote service whose listing lacks [pullRequestIds]. *)
Definition no_ids_remote : Remote :=
  mkRemote (Some None) [("1", Some feature_pr)] [] [] (IamUser (Some "arn")) [] 100.

(** Replace the remote service (its data changed between two calls). *)
Definition set_remote (r : Remote) (w : World) : World :=
  mkWorld (cfg w) (env w) (secrets w) r (calls w).

(** The root of a thread matches in the sense of [ensureComment]. *)
Definition root_matches (topic : option string) (header body : string) (o : CommentsObj) : bool :=
  match comments o with
  | Some (c0 :: _) =>
      (truthy topic && opt_startsWith header (content c0))
      || (negb (truthy topic) && opt_string_eqb (content c0) (Some body))
  | _ => false
  end.

(** A thread the scan passes over: it has a root, which does not match,
    or no comment list at all. *)
Definition passed_over (topic : option string) (header body : string) (o : CommentsObj) : Prop :=
  comments o <> Some [] /\ root_matches topic header body o = false.

(** A PR whose comment stream has two threads under the topic [t]. *)
Definition topic_thread (id text : string) : CommentsObj :=
  mkCommentsObj (Some [mkComment (Some id) (Some ("### t" ++ nl ++ nl ++ text)%string)]).

Definition topic_event : PullRequestEvent :=
  mkEvent (Some (mkSourceRefUpdated (Some "before") (Some "after"))).

Definition comments_remote (threads : list CommentsObj) : Remote :=
  mkRemote (Some (Some [])) [] [("7", threads)] [("7", [topic_event])]
    (IamUser (Some "arn")) [] 100.

Definition comments_world (threads : list CommentsObj) : World :=
  mk_world empty_cfg (comments_remote threads).

(** A comment content one byte above the budget of [createPr]. *)
Definition long_content : string := string_of_list_ascii (repeat "a"%char 10240).

(** Every body a create or update call carries is [body]. *)
Definition carries_body (body : string) (c : Call) : Prop :=
  match c with
  | CCreatePrComment _ _ b _ _ => b = body
  | CUpdateComment _ b => b = body
  | _ => True
  end.

(** The calls [m] issues all satisfy [P]. *)
Definition logs_only {A} (P : Call -> Prop) (m : M A) : Prop :=
  forall w, exists new, calls (snd (m w)) = calls w ++ new /\ Forall P new.

(** A service whose [GetPullRequest] endpoint rejects. *)
Definition getpr_down_remote : Remote :=
  mkRemote (Some (Some ["1"])) [("1", Some feature_pr)] [] [] (IamUser (Some "arn")) [KGetPr] 100.

(** A thread whose root is a plain comment and whose reply carries the topic header. *)
Definition reply_thread : CommentsObj :=
  mkCommentsObj (Some [mkComment (Some "r0") (Some "hello");
                       mkComment (Some "r1") (Some ("### t" ++ nl ++ nl ++ "x")%string)]).

(** The same session with [process.env.AWS_REGION] set to [rg]. *)
Definition set_env_region (rg : option string) (w : World) : World :=
  mkWorld (cfg w)
    (mkEnv (AWS_ACCESS_KEY_ID (env w)) (AWS_SECRET_ACCESS_KEY (env w)) rg
       (AWS_SESSION_TOKEN (env w)))
    (secrets w) (remote w) (calls w).

Definition region_env : Env := mkEnv (Some "AKID") (Some "SECRET") (Some "eu-west-1") None.

(** A service whose description endpoint rejects. *)
Definition description_down_remote : Remote :=
  mkRemote (Some (Some [])) [] [] [] (IamUser (Some "arn")) [KUpdatePrDescription] 100.

(** [m] leaves the module's [config] as it is. *)
Definition keeps_cfg {A} (m : M A) : Prop := forall w, cfg (snd (m w)) = cfg w.


(* ------------------------------------------------------------------ *)
(** ** [getBranchPr] *)

(** [getPr(NaN)]: the number of a listed PR whose identifier did not
    parse; the template literal turns it into ["NaN"]. *)
Definition getPr_NaN : M (option Pr) :=
  prRes <- client_getPr "NaN" ;;
  match prRes with
  | Some (Some prInfo) =>
      t <- first_target prInfo ;;
      let prState := derived_state prInfo t in
      ret (Some (mkPr None (sourceReference t) (destinationReference t)
                  (pr_title prInfo) prState (revisionId prInfo) None))
  | _ => ret None
  end.

Definition getBranchPr (branchName : string) : M (option Pr) :=
  existingPr <- findPr branchName None Open ;;
  match existingPr with
  | Some p => match number p with Some n => getPr n | None => getPr_NaN end
  | None => ret None
  end.

(** A world whose module [config] is [c]. *)
Definition with_cfg (w : World) (c : Config) : World :=
  mkWorld c (env w) (secrets w) (remote w) (calls w).

(** The listed PRs [findPr] keeps for [getBranchPr]. *)
Definition open_prs_of (branchName : string) (l : list Pr) : list Pr :=
  filter (fun item => PrState_eqb (state item) Open)
    (filter (fun item => opt_string_eqb (sourceBranch item)
                           (Some (getNewBranchName branchName))) l).

(* ------------------------------------------------------------------ *)
(** ** [initRepo], [getRepos], [getRawFile], [getJsonFile], [addReviewers]

    These reach parts of [codecommit-client] and [util/git] that the
    functions above do not use: the repository information, the git clone,
    the repository listing, the file download and the approval rules.  They
    run over a world extended with that part of the service and its own
    call log. *)

Record RepositoryMetadata := mkRepositoryMetadata {
  meta_defaultBranch : option string;
  repositoryId : option string;
}.

(** [GetRepositoryOutput] *)
Record RepositoryInfo := mkRepositoryInfo {
  repositoryMetadata : option RepositoryMetadata;
}.

Record RepositoryNameIdPair := mkRepositoryNameIdPair {
  pair_repositoryName : option string;
}.

(** [GetFileOutput] *)
Record GetFileOutput := mkGetFileOutput {
  fileContent : option (list Byte.byte);
}.

(** [RepoResult] *)
Record RepoResult := mkRepoResult {
  rr_repoFingerprint : string;
  rr_defaultBranch : string;
  rr_isFork : bool;
}.

Inductive XCall :=
  | CGetRepositoryInfo (repo : string)
  | CGitInitRepo (url : string)
  | CListRepositories
  | CGetFile (repo : option string) (fileName : string) (branchOrTag : option string)
  | CCreatePrApprovalRule (prNo content : string).

Inductive XKind :=
  | KGetRepositoryInfo | KGitInitRepo | KListRepositories | KGetFile
  | KCreatePrApprovalRule.

Scheme Equality for XKind.

Definition xkind_of (c : XCall) : XKind :=
  match c with
  | CGetRepositoryInfo _ => KGetRepositoryInfo
  | CGitInitRepo _ => KGitInitRepo
  | CListRepositories => KListRepositories
  | CGetFile _ _ _ => KGetFile
  | CCreatePrApprovalRule _ _ => KCreatePrApprovalRule
  end.

(** The answers of that part of the service, and the endpoints that reject. *)
Record XRemote := mkXRemote {
  x_repoInfo : string -> option RepositoryInfo;
  x_repos : option (option (list RepositoryNameIdPair));
  x_getFile : option string -> string -> option string -> option GetFileOutput;
  x_fail : list XKind;
}.

Record XWorld := mkXWorld {
  base : World;
  xremote : XRemote;
  xcalls : list XCall;
}.

(** Collaborators outside src/ that these functions only pass values to:
    [getCodeCommitUrl] of [codecommit-client], [repoFingerprint] of
    [../util], the messages of [constants/error-messages] and the UTF-8
    decoding of [TextDecoder.decode]; they are kept abstract. *)
Record Collab := mkCollab {
  getCodeCommitUrl : option string -> string -> option Credentials -> string;
  repoFingerprint : string -> option string -> string;
  REPOSITORY_NOT_FOUND : string;
  REPOSITORY_EMPTY : string;
  PLATFORM_BAD_CREDENTIALS : string;
  utf8_decode : list Byte.byte -> string;
}.

(** An error of these functions: one of the adapter's, or a rejected call. *)
Inductive XErr :=
  | XE (e : Err)
  | XErrRemote (k : XKind).

Inductive XResult (A : Type) := XOk (a : A) | XThrow (e : XErr).
Arguments XOk {A} a.
Arguments XThrow {A} e.

Definition XM (A : Type) := XWorld -> XResult A * XWorld.

Definition xret {A} (a : A) : XM A := fun xw => (XOk a, xw).

Definition xbind {A B} (m : XM A) (k : A -> XM B) : XM B :=
  fun xw => match m xw with
            | (XOk a, xw') => k a xw'
            | (XThrow e, xw') => (XThrow e, xw')
            end.

Definition xthrow {A} (e : Err) : XM A := fun xw => (XThrow (XE e), xw).

Definition xcatch {A} (m : XM A) (h : XErr -> XM A) : XM A :=
  fun xw => match m xw with
            | (XThrow e, xw') => h e xw'
            | r => r
            end.

Notation "x <~ m ;; k" := (xbind m (fun x => k))
  (at level 61, m at next level, right associativity).
Notation "m ;;~ k" := (xbind m (fun _ => k))
  (at level 61, right associativity).

Definition x_get_cfg : XM Config := fun xw => (XOk (cfg (base xw)), xw).

Definition x_modify_cfg (f : Config -> Config) : XM unit :=
  fun xw => (XOk tt, mkXWorld (with_cfg (base xw) (f (cfg (base xw)))) (xremote xw) (xcalls xw)).

Definition x_failing (r : XRemote) (k : XKind) : bool := existsb (XKind_beq k) (x_fail r).

Definition x_remote_call {A} (c : XCall) (answer : XRemote -> A) : XM A :=
  fun xw =>
    let xw' := mkXWorld (base xw) (xremote xw) (xcalls xw ++ [c]) in
    if x_failing (xremote xw) (xkind_of c)
    then (XThrow (XErrRemote (xkind_of c)), xw')
    else (XOk (answer (xremote xw)), xw').

Definition client_getRepositoryInfo (repo : string) : XM (option RepositoryInfo) :=
  x_remote_call (CGetRepositoryInfo repo) (fun r => x_repoInfo r repo).

(** [git.initRepo({url})]: the clone either succeeds or rejects. *)
Definition git_initRepo (url : string) : XM unit :=
  x_remote_call (CGitInitRepo url) (fun _ => tt).

Definition client_listRepositories : XM (option (option (list RepositoryNameIdPair))) :=
  x_remote_call CListRepositories (fun r => x_repos r).

Definition client_getFile (repo : option string) (fileName : string)
  (branchOrTag : option string) : XM (option GetFileOutput) :=
  x_remote_call (CGetFile repo fileName branchOrTag)
    (fun r => x_getFile r repo fileName branchOrTag).

Definition client_createPrApprovalRule (prNo content : string) : XM unit :=
  x_remote_call (CCreatePrApprovalRule prNo content) (fun _ => tt).

Definition set_repository (r : option string) (c : Config) : Config :=
  mkConfig r (defaultBranch c) (region c) (prList c) (credentials c) (userArn c).
Definition set_defaultBranch (b : option string) (c : Config) : Config :=
  mkConfig (repository c) b (region c) (prList c) (credentials c) (userArn c).

(** [initRepo({repository, endpoint})] *)
Definition initRepo (x : Collab) (repository : string) (endpoint : option string)
  : XM RepoResult :=
  x_modify_cfg (set_repository (Some repository)) ;;~
  repo <~ xcatch (client_getRepositoryInfo repository)
                 (fun _ => xthrow (ErrMessage (REPOSITORY_NOT_FOUND x))) ;;
  c <~ x_get_cfg ;;
  let url := getCodeCommitUrl x (region c) repository (credentials c) in
  xcatch (git_initRepo url) (fun _ => xthrow (ErrMessage (PLATFORM_BAD_CREDENTIALS x))) ;;~
  match opt_bind repo repositoryMetadata with
  | None => xthrow (ErrMessage (REPOSITORY_NOT_FOUND x))
  | Some metadata =>
      match meta_defaultBranch metadata, repositoryId metadata with
      | Some (String _ _ as defaultBranch), Some (String _ _ as repositoryId) =>
          x_modify_cfg (set_defaultBranch (Some defaultBranch)) ;;~
          xret (mkRepoResult (repoFingerprint x repositoryId endpoint) defaultBranch false)
      | _, _ => xthrow (ErrMessage (REPOSITORY_EMPTY x))
      end
  end.

(** The [for (const repo of repoNames)] loop of [getRepos]. *)
Fixpoint collect_names (repoNames : list RepositoryNameIdPair) : list string :=
  match repoNames with
  | [] => []
  | repo :: rest =>
      match pair_repositoryName repo with
      | Some (String _ _ as n) => n :: collect_names rest
      | _ => collect_names rest
      end
  end.

Definition getRepos : XM (list string) :=
  reposRes <~ xcatch (r <~ client_listRepositories ;; xret (Some r)) (fun _ => xret None) ;;
  match reposRes with
  | None => xret []
  | Some rr =>
      let repoNames := match rr with Some (Some l) => l | _ => [] end in
      xret (collect_names repoNames)
  end.

(** [decoder.decode(input)]: an [undefined] input decodes to [""]. *)
Definition decoder_decode (x : Collab) (input : option (list Byte.byte)) : string :=
  match input with
  | Some b => utf8_decode x b
  | None => ""
  end.

Definition getRawFile (x : Collab) (fileName : string) (repoName branchOrTag : option string)
  : XM string :=
  c <~ x_get_cfg ;;
  fileRes <~ client_getFile (match repoName with Some r => Some r | None => repository c end)
               fileName branchOrTag ;;
  match fileRes with
  | Some f => xret (decoder_decode x (fileContent f))
  | None => xthrow ErrType
  end.

(** [getJsonFile]; [JSON5.parse] is the parser [json5_parse], which may throw. *)
Definition getJsonFile {J} (x : Collab) (json5_parse : string -> Result J)
  (fileName : string) (repoName branchOrTag : option string) : XM (option J) :=
  raw <~ getRawFile x fileName repoName branchOrTag ;;
  if truthy (Some raw)
  then fun xw => match json5_parse raw with
                 | Ok j => (XOk (Some j), xw)
                 | Throw e => (XThrow (XE e), xw)
                 end
  else xret None.

(** [JSON.stringify] on an array of strings. *)
Definition quote_char : ascii := ascii_of_nat 34.
Definition bslash : ascii := ascii_of_nat 92.
Definition dq : string := String quote_char EmptyString.

Definition hex_digit (n : nat) : ascii :=
  if Nat.ltb n 10 then ascii_of_nat (48 + n) else ascii_of_nat (87 + n).

(** [QuoteJSONString] on one code unit: the short escapes, [\u00xx] for
    the other control characters, the character itself otherwise. *)
Definition json_escape_char (c : ascii) : list ascii :=
  let n := nat_of_ascii c in
  if Nat.eqb n 8 then [bslash; "b"%char]
  else if Nat.eqb n 9 then [bslash; "t"%char]
  else if Nat.eqb n 10 then [bslash; "n"%char]
  else if Nat.eqb n 12 then [bslash; "f"%char]
  else if Nat.eqb n 13 then [bslash; "r"%char]
  else if Nat.eqb n 34 then [bslash; quote_char]
  else if Nat.eqb n 92 then [bslash; bslash]
  else if Nat.ltb n 32
  then [bslash; "u"%char; "0"%char; "0"%char; hex_digit (n / 16); hex_digit (n mod 16)]
  else [c].

Definition json_quote (s : string) : list ascii :=
  quote_char :: flat_map json_escape_char (list_ascii_of_string s) ++ [quote_char].

Fixpoint join_comma (l : list (list ascii)) : list ascii :=
  match l with
  | [] => []
  | [x] => x
  | x :: r => x ++ ","%char :: join_comma r
  end.

Definition json_stringify_strings (l : list string) : string :=
  string_of_list_ascii ("["%char :: join_comma (map json_quote l) ++ ["]"%char]).

(** [addReviewers(prNo, reviewers)] *)
Definition approval_rule_contents (reviewers : list string) : string :=
  let numberOfApprovers := length reviewers in
  "{" ++ dq ++ "Version" ++ dq ++ ":" ++ dq ++ "2018-11-08" ++ dq ++ ","
  ++ dq ++ "Statements" ++ dq ++ ": [{" ++ dq ++ "Type" ++ dq ++ ": " ++ dq ++ "Approvers"
  ++ dq ++ "," ++ dq ++ "NumberOfApprovalsNeeded" ++ dq ++ ":"
  ++ num_to_string (Z.of_nat numberOfApprovers) ++ "," ++ dq ++ "ApprovalPoolMembers" ++ dq
  ++ ": " ++ json_stringify_strings reviewers ++ "}]}".

Definition addReviewers (prNo : Z) (reviewers : list string) : XM unit :=
  client_createPrApprovalRule (num_to_string prNo) (approval_rule_contents reviewers).

(** A reader for JSON string literals (after the opening quote) and for
    arrays of them, as JSON defines them. *)
Definition json_unescape (e : ascii) : option ascii :=
  match nat_of_ascii e with
  | 34 => Some quote_char
  | 92 => Some bslash
  | 47 => Some e
  | 98 => Some (ascii_of_nat 8)
  | 102 => Some (ascii_of_nat 12)
  | 110 => Some (ascii_of_nat 10)
  | 114 => Some (ascii_of_nat 13)
  | 116 => Some (ascii_of_nat 9)
  | _ => None
  end.

Definition hex4 (h1 h2 h3 h4 : ascii) : option nat :=
  match digit_val 16 h1, digit_val 16 h2, digit_val 16 h3, digit_val 16 h4 with
  | Some a, Some b, Some c, Some d => Some (Z.to_nat (((a * 16 + b) * 16 + c) * 16 + d))
  | _, _, _, _ => None
  end.

Definition cons_read (c : ascii) (o : option (list ascii * list ascii))
  : option (list ascii * list ascii) :=
  match o with
  | Some (s, rest) => Some (c :: s, rest)
  | None => None
  end.

Fixpoint json_read_chars (l : list ascii) : option (list ascii * list ascii) :=
  match l with
  | [] => None
  | c :: r =>
      if Ascii.eqb c quote_char then Some ([], r)
      else if Ascii.eqb c bslash then
        match r with
        | [] => None
        | e :: r' =>
            match json_unescape e with
            | Some d => cons_read d (json_read_chars r')
            | None =>
                if Ascii.eqb e "u"%char then
                  match r' with
                  | h1 :: h2 :: h3 :: h4 :: r'' =>
                      match hex4 h1 h2 h3 h4 with
                      | Some n => if Nat.ltb n 256
                                  then cons_read (ascii_of_nat n) (json_read_chars r'')
                                  else None
                      | None => None
                      end
                  | _ => None
                  end
                else None
            end
        end
      else if Nat.ltb (nat_of_ascii c) 32 then None
      else cons_read c (json_read_chars r)
  end.

Fixpoint json_read_elems (fuel : nat) (l : list ascii) : option (list string * list ascii) :=
  match fuel with
  | O => None
  | S f =>
      match l with
      | q :: r =>
          if Ascii.eqb q quote_char then
            match json_read_chars r with
            | Some (s, c :: r') =>
                if Ascii.eqb c ","%char then
                  match json_read_elems f r' with
                  | Some (ss, rest) => Some (string_of_list_ascii s :: ss, rest)
                  | None => None
                  end
                else if Ascii.eqb c "]"%char then Some ([string_of_list_ascii s], r')
                else None
            | _ => None
            end
          else None
      | [] => None
      end
  end.

Definition json_read_array (l : list ascii) : option (list string * list ascii) :=
  match l with
  | c :: r =>
      if Ascii.eqb c "["%char then
        match r with
        | c' :: r' => if Ascii.eqb c' "]"%char then Some ([], r') else json_read_elems (length r) r
        | [] => None
        end
      else None
  | [] => None
  end.

(* ------------------------------------------------------------------ *)
(** ** [massageMarkdown] *)

(** [l.replace(re, rep)] with the global flag, for a regular expression
    with no empty match: [m] gives the length of the match at the head of a
    text (in the expression's backtracking order), [pend] counts the
    characters of the current match still to be skipped. *)
Fixpoint re_replace_g (m : list ascii -> option nat) (rep : list ascii -> list ascii)
  (l : list ascii) (pend : nat) : list ascii :=
  match l with
  | [] => []
  | c :: r =>
      match pend with
      | S p => re_replace_g m rep r p
      | O =>
          match m l with
          | Some (S n) => rep (firstn (S n) l) ++ re_replace_g m rep r n
          | _ => c :: re_replace_g m rep r 0
          end
      end
  end.

(** [l.replace(re, rep)] without the global flag: the leftmost match only. *)
Fixpoint re_replace_1 (m : list ascii -> option nat) (rep : list ascii -> list ascii)
  (l : list ascii) : list ascii :=
  match l with
  | [] => []
  | c :: r =>
      match m l with
      | Some (S n) => rep (firstn (S n) l) ++ skipn (S n) l
      | _ => c :: re_replace_1 m rep r
      end
  end.

(** A literal pattern. *)
Definition lit_match (p : string) (l : list ascii) : option nat :=
  if lprefix p l then Some (String.length p) else None.

Definition rebase_phrase : string := "you tick the rebase/retry checkbox".
Definition rebase_phrase_rep : string :=
  "rename PR to start with " ++ dq ++ "rebase!" ++ dq.

(** [/<\/?summary>/] and [/<\/?details>/] *)
Definition tag_match (tag : string) (l : list ascii) : option nat :=
  if lprefix ("</" ++ tag ++ ">") l then Some (String.length tag + 3)
  else if lprefix ("<" ++ tag ++ ">") l then Some (String.length tag + 2)
  else None.

Definition rebase_check : string := "<!-- rebase-check -->".

(** [`\n---\n\n.*?<!-- rebase-check -->.*?\n`], the lazy [.*?] tried
    shortest first. *)
Definition rebase_check_match (l : list ascii) : option nat :=
  if lprefix (nl ++ "---" ++ nl ++ nl) l then
    let r := skipn 6 l in
    find_map
      (fun i =>
         if lprefix rebase_check (skipn i r) then
           let r2 := skipn (i + 21) r in
           find_map
             (fun j => match nth_error r2 j with
                       | Some c => if Nat.eqb (nat_of_ascii c) 10
                                   then Some (6 + i + 21 + j + 1) else None
                       | None => None
                       end)
             (seq 0 (S (dot_run r2)))
         else None)
      (seq 0 (S (dot_run r)))
  else None.

Definition pull_link : string := "](../pull/".
Definition pull_link_rep : string := "](../../pull-requests/".

(** [/(?<hiddenComment><!--renovate-debug:.*?-->)/] *)
Definition debug_match (l : list ascii) : option nat :=
  if lprefix "<!--renovate-debug:" l then
    let r := skipn 19 l in
    find_map (fun k => if lprefix "-->" (skipn k r) then Some (19 + k + 3) else None)
      (seq 0 (S (dot_run r)))
  else None.

Definition massageMarkdown (input : string) : string :=
  let l0 := list_ascii_of_string input in
  let l1 := re_replace_1 (lit_match rebase_phrase) (fun _ => list_ascii_of_string rebase_phrase_rep) l0 in
  let l2 := re_replace_g (tag_match "summary") (fun _ => list_ascii_of_string "**") l1 0 in
  let l3 := re_replace_g (tag_match "details") (fun _ => []) l2 0 in
  let l4 := re_replace_1 rebase_check_match (fun _ => []) l3 in
  let l5 := re_replace_g (lit_match pull_link) (fun _ => list_ascii_of_string pull_link_rep) l4 0 in
  let l6 := re_replace_1 debug_match
              (fun hiddenComment => list_ascii_of_string "[//]: # (" ++ hiddenComment ++ [")"%char]) l5 in
  string_of_list_ascii l6.


(* ------------------------------------------------------------------ *)
(** ** Further concrete sessions *)

(** A session whose cached PR list holds one open PR from [feature]. *)
Definition branch_cached_world : World :=
  mk_world (set_prList (Some [mkPr (Some 5%Z) (Some "refs/heads/feature") (Some "refs/heads/main")
                               (Some "Update dep") Open None None]) empty_cfg) merged_remote.

(** A PR whose only thread under the topic [t] holds an older text. *)
Definition stale_thread_world : World := comments_world [topic_thread "c1" "old"].

(** An IAM service that denies [GetUser] with a message naming the ARN. *)
Definition denied_remote : Remote :=
  mkRemote None [] [] [] (IamError "AccessDenied: User: arn:aws:iam::1:user/bot is not authorized")
    [] 0.

(** A session with keys and a region in the environment. *)
Definition keyed_world : World := mkWorld empty_cfg region_env [] scenario_remote [].


(* ------------------------------------------------------------------ *)
(** ** Concrete sessions of the extended world *)

Definition demo_collab : Collab :=
  mkCollab (fun _ r _ => ("url/" ++ r)%string) (fun id _ => ("fp" ++ id)%string)
    "not found" "empty" "bad credentials" (fun b => string_of_list_ascii (map ascii_of_byte b)).

Definition demo_xremote (fails : list XKind) : XRemote :=
  mkXRemote
    (fun r => if String.eqb r "someRepo"
              then Some (mkRepositoryInfo (Some (mkRepositoryMetadata (Some "main") (Some "id1"))))
              else None)
    (Some (Some [mkRepositoryNameIdPair (Some "a"); mkRepositoryNameIdPair None;
                 mkRepositoryNameIdPair (Some "")]))
    (fun _ f _ => if String.eqb f "empty.json" then Some (mkGetFileOutput None)
                  else if String.eqb f "renovate.json"
                  then Some (mkGetFileOutput (Some [Byte.x7b; Byte.x7d]))
                  else None)
    fails.

Definition demo_xworld (fails : list XKind) : XWorld :=
  mkXWorld (mk_world empty_cfg scenario_remote) (demo_xremote fails) [].

(** A text contains the literal [p]. *)
Fixpoint contains_lit (p : string) (l : list ascii) : bool :=
  lprefix p l || match l with [] => false | _ :: r => contains_lit p r end.

(** Services whose PR listing, or whose comment listing, rejects. *)
Definition listing_down_remote : Remote :=
  mkRemote (Some (Some ["1"])) [("1", Some feature_pr)] [] [] (IamUser (Some "arn"))
    [KListPullRequests] 100.

Definition comments_down_remote : Remote :=
  mkRemote (Some (Some [])) [] [("7", [])] [] (IamUser (Some "arn")) [KGetPrComments] 100.

(** The characters of an AWS region name ([eu-west-1]): lower-case
    letters, digits and [-]. *)
Definition aws_region_char (c : ascii) : bool :=
  let n := nat_of_ascii c in
  (Nat.leb 97 n && Nat.leb n 122) || (Nat.leb 48 n && Nat.leb n 57) || Nat.eqb n 45.

(** The tail [.amazonaws.com/] of the default endpoint. *)
Definition amz_suffix : list ascii := list_ascii_of_string ".amazonaws.com/".


Example scenario_findPr :
  result_of (findPr "feature" None Open) (mk_world empty_cfg scenario_remote)
  = Ok (Some (mkPr (Some 1%Z) (Some "refs/heads/feature") (Some "refs/heads/main")
                (Some "Update dep") Open None None)).
Proof. vm_compute. reflexivity. Qed.

Example region_of_endpoint :
  parse_region "https://git-codecommit.eu-central-1.amazonaws.com/" = Some "eu-central-1".
Proof. vm_compute. reflexivity. Qed.

Example region_of_bad_endpoint : parse_region "endpoint" = None.
Proof. vm_compute. reflexivity. Qed.

Example arn_of_message :
  user_re_exec (list_ascii_of_string "denied User: arn:aws:iam::1:user/x is not")
  = Some (list_ascii_of_string "arn:aws:iam::1:user/x").
Proof. vm_compute. reflexivity. Qed.

Example parseInt_examples :
  parseInt "42" = Some 42%Z /\ parseInt " -7x" = Some (-7)%Z /\ parseInt "0x1A" = Some 26%Z
  /\ parseInt "abc" = None.
Proof. vm_compute. repeat split. Qed.

Example num_to_string_examples : num_to_string 42 = "42" /\ num_to_string 0 = "0".
Proof. vm_compute. split; reflexivity. Qed.

Example trim_example : trim ("  ab c" ++ nl) = "ab c".
Proof. vm_compute. reflexivity. Qed.

(* ------------------------------------------------------------------ *)
(** ** Running the monad on a symbolic session *)

Lemma bind_run {A B} (m : M A) (k : A -> M B) w :
  bind m k w = match m w with
               | (Ok a, w') => k a w'
               | (Throw e, w') => (Throw e, w')
               end.
Proof. reflexivity. Qed.

Lemma remote_call_ok {A} (c : Call) (ans : Remote -> A * Remote) w :
  failing (remote w) (kind_of c) = false ->
  remote_call c ans w =
  (Ok (fst (ans (remote w))), with_remote w (snd (ans (remote w))) (calls w ++ [c])).
Proof.
  intros H. unfold remote_call. rewrite H. destruct (ans (remote w)); reflexivity.
Qed.

Lemma remote_call_fail {A} (c : Call) (ans : Remote -> A * Remote) w :
  failing (remote w) (kind_of c) = true ->
  remote_call c ans w =
  (Throw (ErrRemote (kind_of c)), with_remote w (remote w) (calls w ++ [c])).
Proof. intros H. unfold remote_call. rewrite H. reflexivity. Qed.

Lemma prefix_app (p s : string) : String.prefix p (p ++ s) = true.
Proof.
  induction p as [|a p IH]; simpl.
  - destruct s; reflexivity.
  - destruct (Ascii.ascii_dec a a) as [_|n]; [exact IH | contradiction].
Qed.

Lemma num_to_string_truthy (n : Z) : truthy (Some (num_to_string n)) = true.
Proof.
  unfold num_to_string, NilZero.string_of_int, NilZero.string_of_uint.
  destruct (Z.to_int n) as [d|d]; [|reflexivity].
  destruct d; reflexivity.
Qed.

Lemma parse_digits_cons : forall radix acc c r v,
  digit_val radix c = Some v ->
  parse_digits radix acc (c :: r) = parse_digits radix (acc * radix + v)%Z r.
Proof. intros radix acc c r v H. simpl. rewrite H. reflexivity. Qed.

Ltac digit_norm :=
  match goal with |- context [(Z.of_nat (nat_of_ascii ?c) - 48)%Z] =>
    let v := eval vm_compute in (Z.of_nat (nat_of_ascii c) - 48)%Z in
    change (Z.of_nat (nat_of_ascii c) - 48)%Z with v end.

Lemma parse_digits_uint_acc : forall d acc,
  parse_digits 10 (Z.pos acc) (list_ascii_of_string (NilEmpty.string_of_uint d))
  = Z.pos (Pos.of_uint_acc d acc).
Proof.
  induction d; intro acc; [reflexivity|..];
    cbn [NilEmpty.string_of_uint list_ascii_of_string Pos.of_uint_acc];
    rewrite <- IHd; (erewrite parse_digits_cons; [|reflexivity]); f_equal;
    digit_norm; lia.
Qed.

Lemma parse_digits_uint : forall d,
  parse_digits 10 0 (list_ascii_of_string (NilEmpty.string_of_uint d)) = Z.of_uint d.
Proof.
  induction d; [reflexivity|..];
    cbn [NilEmpty.string_of_uint list_ascii_of_string];
    (erewrite parse_digits_cons; [|reflexivity]); digit_norm; cbn [Z.mul Z.add];
    [exact IHd|apply parse_digits_uint_acc..].
Qed.

Lemma parse_unsigned_uint : forall d, d <> Decimal.Nil ->
  parse_unsigned (list_ascii_of_string (NilEmpty.string_of_uint d)) = Some (Z.of_uint d).
Proof.
  intros d Hd. rewrite <- parse_digits_uint.
  destruct d as [|d|d|d|d|d|d|d|d|d|d]; [congruence| |reflexivity..].
  destruct d; reflexivity.
Qed.

Lemma parseInt_uint : forall d, d <> Decimal.Nil ->
  parseInt (NilEmpty.string_of_uint d) = Some (Z.of_uint d).
Proof.
  intros d Hd. rewrite <- parse_digits_uint.
  destruct d as [|d|d|d|d|d|d|d|d|d|d]; [congruence| |reflexivity..].
  destruct d; reflexivity.
Qed.

Lemma to_uint_not_nil : forall p, Pos.to_uint p <> Decimal.Nil.
Proof.
  intros p E. pose proof (DecimalPos.Unsigned.of_to p) as H. rewrite E in H. discriminate.
Qed.

Lemma string_of_uint_nonnil : forall d, d <> Decimal.Nil ->
  NilZero.string_of_uint d = NilEmpty.string_of_uint d.
Proof. intros d Hd. destruct d; [congruence|reflexivity..]. Qed.

Lemma of_uint_to_uint : forall p, Z.of_uint (Pos.to_uint p) = Z.pos p.
Proof. intro p. unfold Z.of_uint. rewrite DecimalPos.Unsigned.of_to. reflexivity. Qed.

Lemma parse_num_to_string : forall n : Z, parseInt (num_to_string n) = Some n.
Proof.
  intros [|p|p]; [reflexivity| |].
  - unfold num_to_string. cbn [Z.to_int NilZero.string_of_int].
    rewrite string_of_uint_nonnil by apply to_uint_not_nil.
    rewrite parseInt_uint by apply to_uint_not_nil. now rewrite of_uint_to_uint.
  - unfold num_to_string. cbn [Z.to_int NilZero.string_of_int].
    rewrite string_of_uint_nonnil by apply to_uint_not_nil.
    unfold parseInt. cbn [list_ascii_of_string drop_space is_js_space nat_of_ascii].
    change (option_map Z.opp (parse_unsigned (list_ascii_of_string
              (NilEmpty.string_of_uint (Pos.to_uint p)))) = Some (Z.neg p)).
    rewrite parse_unsigned_uint by apply to_uint_not_nil.
    now rewrite of_uint_to_uint.
Qed.

(* ------------------------------------------------------------------ *)
(** ** C1: the derived state of [getPr] *)

(** C1: for every record fetched by [getPr], the returned PR has state
    [Merged] when the first target's merge metadata reports
    [isMerged = true], whatever the raw [pullRequestStatus]; otherwise it
    is [Open] when the raw status is ["OPEN"] and [Closed] else. *)
Theorem getPr_state_rule :
  forall (w : World) (n : Z) (prInfo : PullRequest) (t : PullRequestTarget) rest,
  failing (remote w) KGetPr = false ->
  assoc (num_to_string n) (r_prs (remote w)) = Some (Some prInfo) ->
  pullRequestTargets prInfo = Some (t :: rest) ->
  exists w',
    getPr n w =
    (Ok (Some (mkPr (Some n) (sourceReference t) (destinationReference t) (pr_title prInfo)
                (match mergeMetadata t with
                 | Some (mkMergeMetadata (Some true)) => Merged
                 | _ => if opt_string_eqb (pullRequestStatus prInfo) (Some "OPEN")
                        then Open else Closed
                 end)
                (revisionId prInfo) None)), w').
Proof.
  intros w n prInfo t rest Hf Hl Ht.
  unfold getPr, client_getPr. rewrite bind_run, remote_call_ok by exact Hf.
  cbn [fst snd]. rewrite Hl. unfold first_target. rewrite Ht.
  unfold ret, derived_state, is_merged, raw_is_open.
  destruct t as [rn sr dr [[[[]|]]|]]; cbn; eexists; reflexivity.
Qed.

Lemma getPr_state_rule_witness :
  failing merged_remote KGetPr = false
  /\ assoc (num_to_string 5) (r_prs merged_remote) = Some (Some merged_pr)
  /\ pullRequestTargets merged_pr = pullRequestTargets merged_pr
  /\ exists w', getPr 5 (mk_world empty_cfg merged_remote) =
       (Ok (Some (mkPr (Some 5%Z) (Some "refs/heads/feature") (Some "refs/heads/main")
                   (Some "Update dep") Merged (Some "rev5") None)), w').
Proof.
  split; [reflexivity|]. split; [vm_compute; reflexivity|]. split; [reflexivity|].
  exact (getPr_state_rule (mk_world empty_cfg merged_remote) 5 merged_pr
           (mkTarget (Some "someRepo") (Some "refs/heads/feature") (Some "refs/heads/main")
              (Some (mkMergeMetadata (Some true)))) []
           eq_refl ltac:(vm_compute; reflexivity) eq_refl).
Defined.

(* ------------------------------------------------------------------ *)
(** ** C2: translation in [getPrList] *)

Lemma fetch_prs_run :
  forall ids acc w,
  failing (remote w) KGetPr = false ->
  records_have_targets (r_prs (remote w)) ids ->
  exists w', fetch_prs ids acc w = (Ok (acc ++ listed_translation (r_prs (remote w)) ids), w')
             /\ remote w' = remote w /\ cfg w' = cfg w.
Proof.
  induction ids as [|id ids IH]; intros acc w Hf Hr.
  - exists w. cbn. rewrite app_nil_r. auto.
  - inversion Hr as [|? ? Hid Hids]; subst.
    cbn [fetch_prs]. unfold client_getPr. rewrite bind_run, remote_call_ok by exact Hf.
    cbn [fst snd listed_translation flat_map].
    set (w1 := with_remote w (remote w) (calls w ++ [CGetPr id])).
    assert (Hf1 : failing (remote w1) KGetPr = false) by exact Hf.
    assert (Hr1 : records_have_targets (r_prs (remote w1)) ids) by exact Hids.
    destruct (assoc id (r_prs (remote w))) as [[p|]|] eqn:Ha.
    + destruct Hid as (t & rest & Ht). unfold first_target. rewrite bind_run, Ht.
      unfold ret at 1.
      destruct (IH (acc ++ [mkPr (parseInt id) (sourceReference t) (destinationReference t)
                       (pr_title p) (if raw_is_open p then Open else Closed) None None]) w1 Hf1 Hr1)
        as (w' & Hrun & Hrem & Hcfg).
      exists w'. rewrite Hrun. split; [|split; assumption].
      rewrite <- app_assoc. rewrite ?Ht. reflexivity.
    + destruct (IH acc w1 Hf1 Hr1) as (w' & Hrun & Hrem & Hcfg).
      exists w'. rewrite Hrun. auto.
    + destruct (IH acc w1 Hf1 Hr1) as (w' & Hrun & Hrem & Hcfg).
      exists w'. rewrite Hrun. auto.
Qed.

(** On a cache miss whose listing names [ids], [getPrList] returns, and
    stores in the cache, the PRs of the present records in listing order,
    each with state [Open] when its raw status is ["OPEN"] and [Closed]
    otherwise, and with no sha. *)
Lemma getPrList_translation :
  forall (w : World) (ids : list string),
  prList (cfg w) = None ->
  r_listResp (remote w) = Some (Some ids) ->
  failing (remote w) KListPullRequests = false ->
  failing (remote w) KGetPr = false ->
  records_have_targets (r_prs (remote w)) ids ->
  exists w', getPrList w = (Ok (listed_translation (r_prs (remote w)) ids), w')
             /\ prList (cfg w') = Some (listed_translation (r_prs (remote w)) ids).
Proof.
  intros w ids Hc Hl Hf1 Hf2 Hr.
  unfold getPrList. rewrite bind_run. cbn [get_cfg]. rewrite Hc.
  unfold client_listPullRequests. rewrite bind_run, remote_call_ok by exact Hf1.
  cbn [fst snd]. rewrite Hl.
  set (w1 := with_remote w (remote w) (calls w ++ [CListPullRequests (repository (cfg w)) (userArn (cfg w))])).
  destruct (fetch_prs_run ids [] w1 Hf2 Hr) as (w' & Hrun & Hrem & Hcfg).
  rewrite bind_run, Hrun. cbn [app].
  change (remote w1) with (remote w) in *.
  eexists. split; [reflexivity|]. reflexivity.
Qed.

(** C2 fails on the code: [getPrList] translates a listed record from its
    raw status alone, while [getPr] applies the merged-first rule to the
    same [GetPullRequest] record.  For every PR [n] whose first target
    reports [isMerged = true], a cache-missing [getPrList] whose listing
    names [n] lists it as [Open] or [Closed] (never [Merged]) and without
    its sha, whereas [getPr n] on the same session returns it as [Merged]
    with its revision. *)
Theorem getPrList_merged_not_merged :
  forall (w : World) (n : Z) (p : PullRequest) (t : PullRequestTarget) rest,
  prList (cfg w) = None ->
  r_listResp (remote w) = Some (Some [num_to_string n]) ->
  failing (remote w) KListPullRequests = false ->
  failing (remote w) KGetPr = false ->
  assoc (num_to_string n) (r_prs (remote w)) = Some (Some p) ->
  pullRequestTargets p = Some (t :: rest) ->
  is_merged t = true ->
  result_of getPrList w
  = Ok [mkPr (Some n) (sourceReference t) (destinationReference t) (pr_title p)
          (if raw_is_open p then Open else Closed) None None]
  /\ result_of (getPr n) w
     = Ok (Some (mkPr (Some n) (sourceReference t) (destinationReference t) (pr_title p)
                  Merged (revisionId p) None)).
Proof.
  intros w n p t rest Hc Hl Hf1 Hf2 Ha Ht Hm. split.
  - assert (Hr : records_have_targets (r_prs (remote w)) [num_to_string n]).
    { constructor; [|constructor]. rewrite Ha. exists t, rest. exact Ht. }
    destruct (getPrList_translation w [num_to_string n] Hc Hl Hf1 Hf2 Hr) as (w' & Hrun & _).
    unfold result_of. rewrite Hrun. cbn [fst listed_translation flat_map].
    rewrite Ha, Ht, parse_num_to_string. reflexivity.
  - unfold result_of, getPr, client_getPr. rewrite bind_run, remote_call_ok by exact Hf2.
    cbn [fst snd remote with_remote]. rewrite Ha. unfold first_target. rewrite Ht.
    unfold bind, ret, derived_state. cbv beta iota zeta. rewrite Hm. reflexivity.
Qed.

Lemma getPrList_merged_not_merged_witness :
  is_merged (mkTarget (Some "someRepo") (Some "refs/heads/feature") (Some "refs/heads/main")
               (Some (mkMergeMetadata (Some true)))) = true
  /\ result_of getPrList (mk_world empty_cfg merged_remote)
     = Ok [mkPr (Some 5%Z) (Some "refs/heads/feature") (Some "refs/heads/main")
             (Some "Update dep") Closed None None]
  /\ result_of (getPr 5) (mk_world empty_cfg merged_remote)
     = Ok (Some (mkPr (Some 5%Z) (Some "refs/heads/feature") (Some "refs/heads/main")
                   (Some "Update dep") Merged (Some "rev5") None)).
Proof.
  split; [reflexivity|].
  exact (getPrList_merged_not_merged (mk_world empty_cfg merged_remote) 5 merged_pr
           (mkTarget (Some "someRepo") (Some "refs/heads/feature") (Some "refs/heads/main")
              (Some (mkMergeMetadata (Some true)))) []
           eq_refl eq_refl eq_refl eq_refl ltac:(vm_compute; reflexivity) eq_refl eq_refl).
Defined.

(* ------------------------------------------------------------------ *)
(** ** C3: the state filter of [findPr] *)

(** C3 fails on the code: with a concrete state the [default] branch of
    the [switch] keeps the [Open] PRs, not those of the requested state;
    [findPr] with [Closed] misses a closed PR and returns an open one. *)
Theorem findPr_concrete_state_filters_open :
  result_of (findPr "b" None Closed) (cached_world [closed_pr_b]) = Ok None
  /\ result_of (findPr "b" None Closed) (cached_world [open_pr_b]) = Ok (Some open_pr_b)
  /\ result_of (findPr "b" None Merged) (cached_world [open_pr_b]) = Ok (Some open_pr_b)
  /\ result_of (findPr "b" None NotOpen) (cached_world [open_pr_b; closed_pr_b])
     = Ok (Some closed_pr_b)
  /\ result_of (findPr "b" None All) (cached_world [open_pr_b; closed_pr_b])
     = Ok (Some open_pr_b).
Proof. vm_compute. repeat split. Qed.

(* ------------------------------------------------------------------ *)
(** ** C4: the PR-list cache *)

Lemma keeps_ret {A} (a : A) : keeps_cfg (ret a).
Proof. intro w. reflexivity. Qed.

Lemma keeps_throw {A} (e : Err) : keeps_cfg (@throw A e).
Proof. intro w. reflexivity. Qed.

Lemma keeps_get_cfg : keeps_cfg get_cfg.
Proof. intro w. reflexivity. Qed.

Lemma keeps_get_secrets : keeps_cfg get_secrets.
Proof. intro w. reflexivity. Qed.

Lemma keeps_remote_call {A} (c : Call) (ans : Remote -> A * Remote) :
  keeps_cfg (remote_call c ans).
Proof.
  intro w. unfold remote_call. destruct (failing (remote w) (kind_of c)); [reflexivity|].
  destruct (ans (remote w)); reflexivity.
Qed.

Lemma keeps_bind {A B} (m : M A) (k : A -> M B) :
  keeps_cfg m -> (forall a, keeps_cfg (k a)) -> keeps_cfg (bind m k).
Proof.
  intros Hm Hk w. unfold bind. specialize (Hm w).
  destruct (m w) as [[a|e] w'] eqn:E; cbn in *; [rewrite Hk|]; exact Hm.
Qed.

Lemma keeps_catch {A} (m : M A) (h : Err -> M A) :
  keeps_cfg m -> (forall e, keeps_cfg (h e)) -> keeps_cfg (catch_ m h).
Proof.
  intros Hm Hh w. unfold catch_. specialize (Hm w).
  destruct (m w) as [[a|e] w'] eqn:E; cbn in *; [|rewrite Hh]; exact Hm.
Qed.

Create HintDb keeps.
#[local] Hint Resolve keeps_ret keeps_throw keeps_get_cfg keeps_get_secrets
  keeps_remote_call : keeps.

Ltac keeps_step :=
  match goal with
  | |- keeps_cfg (bind _ _) => apply keeps_bind; [|intro; cbv beta zeta]
  | |- keeps_cfg (catch_ _ _) => apply keeps_catch; [|intro; cbv beta zeta]
  | |- keeps_cfg (match ?x with _ => _ end) => destruct x
  | |- keeps_cfg (if ?b then _ else _) => destruct b
  | |- keeps_cfg _ => solve [auto with keeps]
  | |- keeps_cfg _ =>
      progress unfold client_getPr, client_getPrComments, client_getPrEvents,
        client_createPrComment, client_updateComment, client_deleteComment,
        client_squashMerge, client_fastForwardMerge, client_updatePrStatus,
        client_updatePrDescription, client_updatePrTitle, client_createPr,
        when_truthy, target0
  end.

Ltac keeps_solve := repeat keeps_step.

Lemma createPr_keeps s t ttl b : keeps_cfg (createPr s t ttl b).
Proof. unfold createPr. keeps_solve. Qed.

Lemma updatePr_keeps n ttl b st : keeps_cfg (updatePr n ttl b st).
Proof. unfold updatePr. keeps_solve. Qed.

Lemma mergePr_keeps b n st : keeps_cfg (mergePr b n st).
Proof. unfold mergePr. keeps_solve. Qed.

Lemma ensureComment_keeps n t c : keeps_cfg (ensureComment n t c).
Proof. unfold ensureComment. keeps_solve. Qed.

Lemma ensureCommentRemoval_keeps k : keeps_cfg (ensureCommentRemoval k).
Proof. unfold ensureCommentRemoval. keeps_solve. Qed.

Lemma fetch_prs_keeps ids acc : keeps_cfg (fetch_prs ids acc).
Proof.
  revert acc. induction ids as [|id ids IH]; intro acc; cbn [fetch_prs].
  - apply keeps_ret.
  - unfold first_target. keeps_solve.
Qed.

Lemma logs_ret {A} P (a : A) : logs_only P (ret a).
Proof. intro w. exists []. rewrite app_nil_r. auto. Qed.

Lemma logs_throw {A} P (e : Err) : logs_only P (@throw A e).
Proof. intro w. exists []. rewrite app_nil_r. auto. Qed.

Lemma logs_remote_call {A} (P : Call -> Prop) c (ans : Remote -> A * Remote) :
  P c -> logs_only P (remote_call c ans).
Proof.
  intros Hc w. exists [c]. split; [|auto].
  unfold remote_call. destruct (failing (remote w) (kind_of c)); [reflexivity|].
  destruct (ans (remote w)); reflexivity.
Qed.

Lemma logs_bind {A B} P (m : M A) (k : A -> M B) :
  logs_only P m -> (forall a, logs_only P (k a)) -> logs_only P (bind m k).
Proof.
  intros Hm Hk w. unfold bind. destruct (Hm w) as (n1 & H1 & F1).
  destruct (m w) as [[a|e] w'] eqn:E; cbn in H1.
  - destruct (Hk a w') as (n2 & H2 & F2). exists (n1 ++ n2).
    rewrite H2, H1, app_assoc. split; [reflexivity|]. apply Forall_app; auto.
  - exists n1. auto.
Qed.

Lemma logs_catch {A} P (m : M A) (h : Err -> M A) :
  logs_only P m -> (forall e, logs_only P (h e)) -> logs_only P (catch_ m h).
Proof.
  intros Hm Hh w. unfold catch_. destruct (Hm w) as (n1 & H1 & F1).
  destruct (m w) as [[a|e] w'] eqn:E; cbn in H1.
  - exists n1. auto.
  - destruct (Hh e w') as (n2 & H2 & F2). exists (n1 ++ n2).
    rewrite H2, H1, app_assoc. split; [reflexivity|]. apply Forall_app; auto.
Qed.

Lemma logs_get_cfg P : logs_only P get_cfg.
Proof. intro w. exists []. rewrite app_nil_r. auto. Qed.

Lemma logs_modify_cfg P f : logs_only P (modify_cfg f).
Proof. intro w. exists []. rewrite app_nil_r. auto. Qed.

Ltac logs_step :=
  match goal with
  | |- logs_only _ (bind _ _) => apply logs_bind; [|intro; cbv beta zeta]
  | |- logs_only _ (catch_ _ _) => apply logs_catch; [|intro; cbv beta zeta]
  | |- logs_only _ (match ?x with _ => _ end) => destruct x
  | |- logs_only _ (if ?b then _ else _) => destruct b
  | |- logs_only _ (ret _) => apply logs_ret
  | |- logs_only _ (throw _) => apply logs_throw
  | |- logs_only _ (remote_call _ _) => apply logs_remote_call; cbn; try reflexivity; exact I
  | |- logs_only _ (modify_cfg _) => apply logs_modify_cfg
  | |- logs_only _ _ =>
      progress unfold client_getPrComments, client_getPrEvents, client_createPrComment,
        client_updateComment, client_getPr, client_listPullRequests, first_target
  | |- logs_only _ _ => solve [apply logs_get_cfg]
  end.

Lemma getPrList_caches w l w1 :
  getPrList w = (Ok l, w1) ->
  (prList (cfg w) = None -> r_listResp (remote w) <> Some None) ->
  prList (cfg w1) = Some l.
Proof.
  intros Hrun Hresp. unfold getPrList in Hrun. rewrite bind_run in Hrun.
  cbn [get_cfg] in Hrun.
  destruct (prList (cfg w)) as [l'|] eqn:Hc.
  - unfold ret in Hrun. injection Hrun as <- <-. exact Hc.
  - specialize (Hresp eq_refl). unfold client_listPullRequests in Hrun.
    rewrite bind_run in Hrun. unfold remote_call in Hrun.
    destruct (failing (remote w) (kind_of (CListPullRequests (repository (cfg w)) (userArn (cfg w)))));
      [discriminate|].
    cbn [fst snd] in Hrun.
    destruct (r_listResp (remote w)) as [[ids|]|] eqn:Hl; [| congruence |].
    all: rewrite bind_run in Hrun.
    all: match type of Hrun with
         | context [fetch_prs ?i ?a ?w0] =>
             destruct (fetch_prs i a w0) as [[fetched|e] w2] eqn:Hf; [|discriminate]
         end.
    all: cbn in Hrun; injection Hrun as <- <-; reflexivity.
Qed.

Lemma fetch_prs_logs ids acc : logs_only (fun _ => True) (fetch_prs ids acc).
Proof.
  revert acc. induction ids as [|id ids IH]; intro acc; cbn [fetch_prs]; [apply logs_ret|].
  repeat (first [apply IH | logs_step]).
Qed.

Lemma bind_remote_call_calls {A B} (c : Call) (ans : Remote -> A * Remote) (k : A -> M B) w :
  (forall a, logs_only (fun _ => True) (k a)) ->
  exists new, calls (snd (bind (remote_call c ans) k w)) = calls w ++ c :: new.
Proof.
  intros Hk. unfold bind, remote_call.
  destruct (failing (remote w) (kind_of c)); cbn [fst snd].
  - exists []. reflexivity.
  - destruct (ans (remote w)) as [a r'].
    destruct (Hk a (with_remote w r' (calls w ++ [c]))) as (n & Hn & _).
    exists n. rewrite Hn. cbn [calls with_remote]. rewrite <- app_assoc. reflexivity.
Qed.

(** With an empty cache slot, [getPrList] starts with a listing call. *)
Lemma getPrList_lists_when_empty w :
  prList (cfg w) = None ->
  exists new, calls (snd (getPrList w))
              = calls w ++ CListPullRequests (repository (cfg w)) (userArn (cfg w)) :: new.
Proof.
  intro Hc. unfold getPrList. rewrite bind_run. cbn [get_cfg]. rewrite Hc.
  unfold client_listPullRequests. apply bind_remote_call_calls. intro a.
  destruct a as [[ids|]|].
  - apply logs_bind; [apply fetch_prs_logs|intro; cbv beta zeta].
    apply logs_bind; [apply logs_modify_cfg|intro; apply logs_ret].
  - apply logs_ret.
  - apply logs_bind; [apply fetch_prs_logs|intro; cbv beta zeta].
    apply logs_bind; [apply logs_modify_cfg|intro; apply logs_ret].
Qed.

(** A listing without [pullRequestIds] on an empty slot: [[]], uncached. *)
Lemma getPrList_no_ids w :
  prList (cfg w) = None ->
  r_listResp (remote w) = Some None ->
  failing (remote w) KListPullRequests = false ->
  getPrList w = (Ok [], with_remote w (remote w)
                         (calls w ++ [CListPullRequests (repository (cfg w)) (userArn (cfg w))])).
Proof.
  intros Hc Hl Hf. unfold getPrList. rewrite bind_run. cbn [get_cfg]. rewrite Hc.
  unfold client_listPullRequests. rewrite bind_run, remote_call_ok by exact Hf.
  cbn [fst snd]. rewrite Hl. reflexivity.
Qed.

(** C4 (as amended): once the cache slot holds a list, [getPrList]
    returns it with no remote call and an unchanged session; [createPr],
    [updatePr], [mergePr], [ensureComment] and [ensureCommentRemoval] never
    change the slot; and a second [getPrList] after a successful first one
    returns the same sequence whatever the remote data has become, unless
    the first call met an empty slot and a listing without
    [pullRequestIds]: that call returns an empty sequence, leaves the slot
    empty, and the next call, whatever the remote data, lists again. *)
Theorem prList_cache_invariant :
  forall w : World,
  (forall l, prList (cfg w) = Some l -> getPrList w = (Ok l, w))
  /\ (forall s t ttl b, prList (cfg (snd (createPr s t ttl b w))) = prList (cfg w))
  /\ (forall n ttl b st, prList (cfg (snd (updatePr n ttl b st w))) = prList (cfg w))
  /\ (forall br n st, prList (cfg (snd (mergePr br n st w))) = prList (cfg w))
  /\ (forall n t c, prList (cfg (snd (ensureComment n t c w))) = prList (cfg w))
  /\ (forall k, prList (cfg (snd (ensureCommentRemoval k w))) = prList (cfg w))
  /\ (forall l w1 r,
        getPrList w = (Ok l, w1) ->
        (prList (cfg w) = None -> r_listResp (remote w) <> Some None) ->
        getPrList (set_remote r w1) = (Ok l, set_remote r w1))
  /\ (prList (cfg w) = None ->
      r_listResp (remote w) = Some None ->
      failing (remote w) KListPullRequests = false ->
      let w1 := with_remote w (remote w)
                  (calls w ++ [CListPullRequests (repository (cfg w)) (userArn (cfg w))]) in
      getPrList w = (Ok [], w1)
      /\ prList (cfg w1) = None
      /\ forall r, exists new,
           calls (snd (getPrList (set_remote r w1)))
           = calls w1 ++ CListPullRequests (repository (cfg w)) (userArn (cfg w)) :: new).
Proof.
  intro w. split; [|split; [|split; [|split; [|split; [|split; [|split]]]]]].
  - intros l Hc. unfold getPrList. rewrite bind_run. cbn [get_cfg]. rewrite Hc. reflexivity.
  - intros. rewrite createPr_keeps. reflexivity.
  - intros. rewrite updatePr_keeps. reflexivity.
  - intros. rewrite mergePr_keeps. reflexivity.
  - intros. rewrite ensureComment_keeps. reflexivity.
  - intros. rewrite ensureCommentRemoval_keeps. reflexivity.
  - intros l w1 r Hrun Hresp.
    pose proof (getPrList_caches w l w1 Hrun Hresp) as Hc.
    unfold getPrList. rewrite bind_run. cbn [get_cfg set_remote cfg]. cbn in Hc. rewrite Hc.
    reflexivity.
  - intros Hc Hl Hf w1. split; [exact (getPrList_no_ids w Hc Hl Hf)|].
    split; [exact Hc|]. intro r.
    exact (getPrList_lists_when_empty (set_remote r w1) Hc).
Qed.

Lemma prList_cache_invariant_witness :
  let w0 := mk_world empty_cfg scenario_remote in
  getPrList w0 = (Ok [mkPr (Some 1%Z) (Some "refs/heads/feature") (Some "refs/heads/main")
                        (Some "Update dep") Open None None], snd (getPrList w0))
  /\ getPrList (set_remote no_ids_remote (snd (getPrList w0)))
     = (Ok [mkPr (Some 1%Z) (Some "refs/heads/feature") (Some "refs/heads/main")
              (Some "Update dep") Open None None],
        set_remote no_ids_remote (snd (getPrList w0)))
  /\ fst (getPrList (mk_world empty_cfg no_ids_remote)) = Ok []
  /\ prList (cfg (snd (getPrList (mk_world empty_cfg no_ids_remote)))) = None.
Proof.
  intro w0.
  assert (H : getPrList w0 = (Ok [mkPr (Some 1%Z) (Some "refs/heads/feature")
                 (Some "refs/heads/main") (Some "Update dep") Open None None],
                 snd (getPrList w0))) by (vm_compute; reflexivity).
  destruct (prList_cache_invariant w0) as (_ & _ & _ & _ & _ & _ & Hstable & _).
  destruct (prList_cache_invariant (mk_world empty_cfg no_ids_remote))
    as (_ & _ & _ & _ & _ & _ & _ & Hempty).
  destruct (Hempty eq_refl eq_refl eq_refl) as (Hrun & Hslot & _).
  split; [exact H|].
  split; [apply (Hstable _ _ no_ids_remote H); intros _; discriminate|].
  rewrite Hrun. split; [reflexivity|exact Hslot].
Defined.

(** C4 is refuted as stated: a first listing without [pullRequestIds]
    returns [[]] without filling the cache, so after the remote data
    changed the second call lists the new PR. *)
Lemma getPrList_uncached_empty_listing :
  let w0 := mk_world empty_cfg no_ids_remote in
  result_of getPrList w0 = Ok []
  /\ prList (cfg (snd (getPrList w0))) = None
  /\ result_of getPrList (set_remote scenario_remote (snd (getPrList w0)))
     = Ok [mkPr (Some 1%Z) (Some "refs/heads/feature") (Some "refs/heads/main")
             (Some "Update dep") Open None None].
Proof. vm_compute. repeat split. Qed.

(* ------------------------------------------------------------------ *)
(** ** C5: [ensureComment] is idempotent *)

Lemma scan_skip topic header body pre rest :
  Forall (passed_over topic header body) pre ->
  scan_threads topic header body (pre ++ rest) = scan_threads topic header body rest.
Proof.
  induction 1 as [|o pre [Hne Hnm] _ IH]; [reflexivity|].
  cbn [app scan_threads]. unfold root_matches in Hnm.
  destruct (comments o) as [[|c0 cs]|]; [congruence| |exact IH].
  rewrite Hnm. exact IH.
Qed.

Lemma opt_string_eqb_refl (x : string) : opt_string_eqb (Some x) (Some x) = true.
Proof. cbn. apply String.eqb_refl. Qed.

Lemma scan_found topic rest_body o c0 cs post :
  comments o = Some (c0 :: cs) ->
  content c0 = Some (comment_header topic ++ rest_body)%string ->
  scan_threads topic (comment_header topic)
    (comment_header topic ++ rest_body)%string (o :: post)
  = ScanFound (commentId c0) false.
Proof.
  intros Ho Hc. cbn [scan_threads]. rewrite Ho, Hc. unfold opt_startsWith, startsWith.
  rewrite prefix_app, opt_string_eqb_refl. destruct (truthy topic); reflexivity.
Qed.

Lemma assoc_upd_same {B} k (f : B -> B) d (l : list (string * B)) v :
  assoc k l = Some v -> assoc k (assoc_upd k f d l) = Some (f v).
Proof.
  induction l as [|[k' v'] l IH]; cbn; [discriminate|].
  destruct (String.eqb k k') eqn:E; cbn; rewrite ?E.
  - intros [= <-]. reflexivity.
  - exact IH.
Qed.

Lemma truthy_cons (a : ascii) (s : string) : truthy (Some (String a s)) = true.
Proof. reflexivity. Qed.

(** The no-op path: the first thread the scan stops at has a root equal to
    the composed body and a truthy id; only the comment list is read. *)
Lemma ensureComment_noop w number topic cont pre o c0 cs post :
  failing (remote w) KGetPrComments = false ->
  assoc (num_to_string number) (r_comments (remote w)) = Some (pre ++ o :: post) ->
  Forall (passed_over topic (comment_header topic)
            (comment_header topic ++ sanitize (secrets w) cont)%string) pre ->
  comments o = Some (c0 :: cs) ->
  content c0 = Some (comment_header topic ++ sanitize (secrets w) cont)%string ->
  truthy (commentId c0) = true ->
  ensureComment number topic cont w
  = (Ok true, with_remote w (remote w)
                (calls w ++ [CGetPrComments (repository (cfg w)) (num_to_string number)])).
Proof.
  intros Hf Ha Hpre Ho Hc Hid.
  unfold ensureComment, catch_, bind, ret, get_secrets, get_cfg, client_getPrComments.
  cbv beta iota zeta. rewrite remote_call_ok by exact Hf.
  cbn [fst snd]. rewrite Ha.
  rewrite scan_skip by exact Hpre. rewrite (scan_found _ _ _ _ _ _ Ho Hc).
  rewrite Hid. reflexivity.
Qed.

(** The create path: no thread is stopped at, and the latest event names
    both commits; one thread holding the composed body is appended. *)
Lemma ensureComment_create w number topic cont data ev evs b1 b2 a1 a2 :
  failing (remote w) KGetPrComments = false ->
  failing (remote w) KGetPrEvents = false ->
  failing (remote w) KCreatePrComment = false ->
  assoc (num_to_string number) (r_comments (remote w)) = Some data ->
  Forall (passed_over topic (comment_header topic)
            (comment_header topic ++ sanitize (secrets w) cont)%string) data ->
  assoc (num_to_string number) (r_events (remote w)) = Some (ev :: evs) ->
  pullRequestSourceReferenceUpdatedEventMetadata ev
  = Some (mkSourceRefUpdated (Some (String b1 b2)) (Some (String a1 a2))) ->
  exists w1,
    ensureComment number topic cont w = (Ok true, w1)
    /\ calls w1 = calls w ++
         [CGetPrComments (repository (cfg w)) (num_to_string number);
          CGetPrEvents (num_to_string number);
          CCreatePrComment (num_to_string number) (repository (cfg w))
            (comment_header topic ++ sanitize (secrets w) cont)%string
            (String b1 b2) (String a1 a2)]
    /\ cfg w1 = cfg w /\ secrets w1 = secrets w
    /\ r_fail (remote w1) = r_fail (remote w)
    /\ assoc (num_to_string number) (r_comments (remote w1))
       = Some (data ++ [mkCommentsObj (Some [mkComment (Some (fresh_id (remote w)))
                          (Some (comment_header topic ++ sanitize (secrets w) cont)%string)])]).
Proof.
  intros Hf1 Hf2 Hf3 Ha Hdata He Hm.
  assert (Hnone : scan_threads topic (comment_header topic)
                    (comment_header topic ++ sanitize (secrets w) cont)%string data = ScanNone).
  { rewrite <- (app_nil_r data). rewrite scan_skip by exact Hdata. reflexivity. }
  unfold ensureComment, catch_, bind, ret, get_secrets, get_cfg, client_getPrComments.
  cbv beta iota zeta. rewrite remote_call_ok by exact Hf1.
  cbn [fst snd]. rewrite Ha, Hnone. cbn [truthy negb].
  unfold client_getPrEvents. rewrite remote_call_ok by exact Hf2. cbn [fst snd remote with_remote].
  rewrite He, Hm.
  unfold client_createPrComment. rewrite remote_call_ok by exact Hf3.
  eexists. split; [reflexivity|].
  cbn [with_remote calls cfg secrets remote snd].
  split; [rewrite <- !app_assoc; reflexivity|].
  split; [reflexivity|]. split; [reflexivity|]. split; [reflexivity|].
  unfold bump, upd_remote_comments. cbn [r_comments].
  erewrite assoc_upd_same; [reflexivity|exact Ha].
Qed.

(** The update path: the scan stops at a thread with a truthy root id
    whose root differs from the body; that root comment is updated. *)
Lemma ensureComment_update_run w number topic cont id data :
  failing (remote w) KGetPrComments = false ->
  failing (remote w) KUpdateComment = false ->
  assoc (num_to_string number) (r_comments (remote w)) = Some data ->
  scan_threads topic (comment_header topic)
    (comment_header topic ++ sanitize (secrets w) cont)%string data = ScanFound (Some id) true ->
  truthy (Some id) = true ->
  result_of (ensureComment number topic cont) w = Ok true
  /\ calls_of (ensureComment number topic cont) w
     = calls w ++ [CGetPrComments (repository (cfg w)) (num_to_string number);
                   CUpdateComment id (comment_header topic ++ sanitize (secrets w) cont)%string].
Proof.
  intros Hf Hu Ha Hs Hid.
  unfold result_of, calls_of, ensureComment, bind, get_secrets, get_cfg, catch_, ret.
  cbv beta iota zeta. unfold client_getPrComments.
  rewrite remote_call_ok by exact Hf. cbn [fst snd]. rewrite Ha.
  rewrite Hs. cbn [negb]. rewrite Hid. cbn [negb].
  unfold client_updateComment. rewrite remote_call_ok by exact Hu.
  cbn. rewrite <- app_assoc. split; reflexivity.
Qed.

Lemma opt_string_eqb_eq (a b : option string) : opt_string_eqb a b = true -> a = b.
Proof.
  destruct a as [x|], b as [y|]; cbn; try discriminate; [|reflexivity].
  intro E. apply String.eqb_eq in E. subst. reflexivity.
Qed.

(** With a topic, the scan stops at a root under the header; it needs
    updating when it differs from the body. *)
Lemma scan_found_update topic header body rest o c0 cs post id :
  truthy topic = true ->
  comments o = Some (c0 :: cs) ->
  content c0 = Some (header ++ rest)%string ->
  content c0 <> Some body ->
  commentId c0 = Some id ->
  scan_threads topic header body (o :: post) = ScanFound (Some id) true.
Proof.
  intros Ht Ho Hc Hne Hid. cbn [scan_threads]. rewrite Ho.
  assert (Hp : opt_startsWith header (content c0) = true).
  { rewrite Hc. unfold opt_startsWith, startsWith. apply prefix_app. }
  rewrite Ht, Hp. cbn [andb orb].
  destruct (opt_string_eqb (content c0) (Some body)) eqn:E.
  - apply opt_string_eqb_eq in E. contradiction.
  - rewrite Hid. reflexivity.
Qed.

(** C5 (as amended): if the first thread the scan stops at (the first
    whose root starts with the topic header, or equals the body when there
    is no topic) has a root equal to the composed body and a truthy id,
    [ensureComment] returns [true] after reading the comment list only, with
    no create and no update call; and starting from a PR where no thread is
    stopped at and whose latest event names both commits, a first call
    creates exactly one thread and a second identical call issues neither a
    create nor an update call.  With a topic, the thread compared is the
    first whose root starts with the header, whatever follows it: when that
    root differs from the body and has a truthy id, it is updated by one
    update call. *)
Theorem ensureComment_idempotent :
  forall (w : World) (number : Z) (topic : option string) (cont : string),
  let header := comment_header topic in
  let body := (header ++ sanitize (secrets w) cont)%string in
  (forall pre o c0 cs post,
     failing (remote w) KGetPrComments = false ->
     assoc (num_to_string number) (r_comments (remote w)) = Some (pre ++ o :: post) ->
     Forall (passed_over topic header body) pre ->
     comments o = Some (c0 :: cs) -> content c0 = Some body -> truthy (commentId c0) = true ->
     ensureComment number topic cont w
     = (Ok true, with_remote w (remote w)
                   (calls w ++ [CGetPrComments (repository (cfg w)) (num_to_string number)])))
  /\ (forall data ev evs b1 b2 a1 a2,
     failing (remote w) KGetPrComments = false ->
     failing (remote w) KGetPrEvents = false ->
     failing (remote w) KCreatePrComment = false ->
     assoc (num_to_string number) (r_comments (remote w)) = Some data ->
     Forall (passed_over topic header body) data ->
     assoc (num_to_string number) (r_events (remote w)) = Some (ev :: evs) ->
     pullRequestSourceReferenceUpdatedEventMetadata ev
     = Some (mkSourceRefUpdated (Some (String b1 b2)) (Some (String a1 a2))) ->
     let w1 := snd (ensureComment number topic cont w) in
     fst (ensureComment number topic cont w) = Ok true
     /\ calls w1 = calls w ++
          [CGetPrComments (repository (cfg w)) (num_to_string number);
           CGetPrEvents (num_to_string number);
           CCreatePrComment (num_to_string number) (repository (cfg w)) body
             (String b1 b2) (String a1 a2)]
     /\ ensureComment number topic cont w1
        = (Ok true, with_remote w1 (remote w1)
                      (calls w1 ++ [CGetPrComments (repository (cfg w)) (num_to_string number)])))
  /\ (forall pre o c0 cs post rest id,
     truthy topic = true ->
     failing (remote w) KGetPrComments = false ->
     failing (remote w) KUpdateComment = false ->
     assoc (num_to_string number) (r_comments (remote w)) = Some (pre ++ o :: post) ->
     Forall (passed_over topic header body) pre ->
     comments o = Some (c0 :: cs) -> content c0 = Some (header ++ rest)%string ->
     content c0 <> Some body -> commentId c0 = Some id -> truthy (Some id) = true ->
     result_of (ensureComment number topic cont) w = Ok true
     /\ calls_of (ensureComment number topic cont) w
        = calls w ++ [CGetPrComments (repository (cfg w)) (num_to_string number);
                      CUpdateComment id body]).
Proof.
  intros w number topic cont header body. split; [|split].
  - intros pre o c0 cs post Hf Ha Hpre Ho Hc Hid.
    exact (ensureComment_noop w number topic cont pre o c0 cs post Hf Ha Hpre Ho Hc Hid).
  - intros data ev evs b1 b2 a1 a2 Hf1 Hf2 Hf3 Ha Hdata He Hm w1.
    destruct (ensureComment_create w number topic cont data ev evs b1 b2 a1 a2
                Hf1 Hf2 Hf3 Ha Hdata He Hm)
      as (w1' & Hrun & Hcalls & Hcfg & Hsec & Hfail & Hassoc).
    subst w1. rewrite Hrun. cbn [fst snd].
    split; [reflexivity|]. split; [exact Hcalls|].
    assert (Hf1' : failing (remote w1') KGetPrComments = false).
    { unfold failing in *. rewrite Hfail. exact Hf1. }
    assert (Hdata' : Forall (passed_over topic (comment_header topic)
                      (comment_header topic ++ sanitize (secrets w1') cont)%string) data).
    { rewrite Hsec. exact Hdata. }
    pose proof (ensureComment_noop w1' number topic cont data _ _ [] [] Hf1' Hassoc Hdata'
                  eq_refl ltac:(cbn; rewrite Hsec; reflexivity)
                  (num_to_string_truthy _)) as Hn.
    rewrite Hcfg in Hn. exact Hn.
  - intros pre o c0 cs post rest id Ht Hf Hu Ha Hpre Ho Hc Hne Hid Hid'.
    apply (ensureComment_update_run w number topic cont id (pre ++ o :: post) Hf Hu Ha); [|exact Hid'].
    rewrite scan_skip by exact Hpre.
    exact (scan_found_update topic header body rest o c0 cs post id Ht Ho Hc Hne Hid).
Qed.

Lemma ensureComment_idempotent_witness :
  fst (ensureComment 7 (Some "t") "hello" (comments_world [])) = Ok true
  /\ calls (snd (ensureComment 7 (Some "t") "hello" (comments_world [])))
     = [CGetPrComments (Some "someRepo") "7"; CGetPrEvents "7";
        CCreatePrComment "7" (Some "someRepo") ("### t" ++ nl ++ nl ++ "hello")%string
          "before" "after"]
  /\ (exists w2,
       ensureComment 7 (Some "t") "hello" (snd (ensureComment 7 (Some "t") "hello" (comments_world [])))
       = (Ok true, w2))
  /\ calls_of (ensureComment 7 (Some "t") "new")
       (comments_world [topic_thread "c1" "old"; topic_thread "c2" "new"])
     = [CGetPrComments (Some "someRepo") "7"; CUpdateComment "c1" ("### t" ++ nl ++ nl ++ "new")%string].
Proof.
  destruct (ensureComment_idempotent (comments_world []) 7 (Some "t") "hello")
    as (_ & Htwice & _).
  destruct (Htwice [] topic_event [] "b"%char "efore" "a"%char "fter" eq_refl eq_refl eq_refl
              eq_refl (Forall_nil _) eq_refl eq_refl) as (H1 & H2 & H3).
  split; [exact H1|]. split; [exact H2|]. split; [eexists; exact H3|].
  destruct (ensureComment_idempotent
              (comments_world [topic_thread "c1" "old"; topic_thread "c2" "new"]) 7 (Some "t") "new")
    as (_ & _ & Hupd).
  exact (proj2 (Hupd [] (topic_thread "c1" "old")
                  (mkComment (Some "c1") (Some ("### t" ++ nl ++ nl ++ "old")%string)) []
                  [topic_thread "c2" "new"] "old" "c1" eq_refl eq_refl eq_refl
                  ltac:(vm_compute; reflexivity) (Forall_nil _) eq_refl
                  ltac:(vm_compute; reflexivity) ltac:(vm_compute; congruence) eq_refl eq_refl)).
Defined.

(** C5 is refuted as stated: with a topic, the first thread under the
    topic header is the one compared; a later thread equal to the body does
    not prevent the update of the first. *)
Lemma ensureComment_updates_first_topic_thread :
  let w := comments_world [topic_thread "c1" "old"; topic_thread "c2" "new"] in
  result_of (ensureComment 7 (Some "t") "new") w = Ok true
  /\ calls_of (ensureComment 7 (Some "t") "new") w
     = [CGetPrComments (Some "someRepo") "7"; CUpdateComment "c1" ("### t" ++ nl ++ nl ++ "new")%string].
Proof. vm_compute. split; reflexivity. Qed.

(* ------------------------------------------------------------------ *)
(** ** C6: the body of [ensureComment] is not truncated *)

(** C6 (as amended): [ensureComment] does not truncate: every create or
    update call it issues carries the whole composed body, the topic header
    followed by the sanitized content, whatever its length. *)
Theorem ensureComment_body_untruncated :
  forall (w : World) (number : Z) (topic : option string) (cont : string),
  exists new,
    calls (snd (ensureComment number topic cont w)) = calls w ++ new
    /\ Forall (carries_body (comment_header topic ++ sanitize (secrets w) cont)%string) new.
Proof.
  intros w number topic cont.
  unfold ensureComment. rewrite !bind_run. unfold get_secrets, get_cfg. cbv beta iota zeta.
  match goal with
  | |- exists new, calls (snd (?m w)) = _ /\ _ => cut (logs_only
        (carries_body (comment_header topic ++ sanitize (secrets w) cont)%string) m);
        [intros H; exact (H w)|]
  end.
  repeat logs_step.
Qed.

(** C6 is refuted: a content of 10,240 bytes reaches the create call whole. *)
Lemma ensureComment_long_content_not_truncated :
  String.length long_content = 10240
  /\ calls_of (ensureComment 7 None long_content) (comments_world [])
     = [CGetPrComments (Some "someRepo") "7"; CGetPrEvents "7";
        CCreatePrComment "7" (Some "someRepo") long_content "before" "after"].
Proof. split; vm_compute; reflexivity. Qed.

(* ------------------------------------------------------------------ *)
(** ** C7: unsupported merge strategies *)

(** C7 (as amended): for [rebase] and any strategy outside [auto],
    [squash] and [fast-forward] (also an absent one), [mergePr] issues the
    PR fetch and no other call (no squash-merge, no fast-forward merge);
    it returns [false] unless that fetch itself rejects, whose error
    propagates. *)
Theorem mergePr_unsupported_strategy :
  forall (w : World) (branchName : option string) (prNo : Z) (strategy : option MergeStrategy),
  strategy <> Some Auto -> strategy <> Some Squash -> strategy <> Some FastForward ->
  calls_of (mergePr branchName prNo strategy) w = calls w ++ [CGetPr (num_to_string prNo)]
  /\ result_of (mergePr branchName prNo strategy) w
     = (if failing (remote w) KGetPr then Throw (ErrRemote KGetPr) else Ok false).
Proof.
  intros w br prNo strategy H1 H2 H3.
  unfold calls_of, result_of, mergePr, client_getPr.
  rewrite bind_run. unfold remote_call.
  destruct (failing (remote w) (kind_of (CGetPr (num_to_string prNo)))) eqn:Hf;
    cbn [kind_of] in Hf; rewrite Hf; [split; reflexivity|].
  cbn [fst snd].
  destruct (assoc (num_to_string prNo) (r_prs (remote w))) as [p|]; [|split; reflexivity].
  destruct (opt_bind p pullRequestTargets) as [targets|]; [|split; reflexivity].
  destruct strategy as [[]|]; try congruence; split; reflexivity.
Qed.

Lemma mergePr_unsupported_strategy_witness :
  calls_of (mergePr (Some "feature") 1 (Some Rebase)) (mk_world empty_cfg scenario_remote)
  = [CGetPr "1"]
  /\ result_of (mergePr (Some "feature") 1 (Some MergeCommit)) (mk_world empty_cfg scenario_remote)
     = Ok false.
Proof.
  split.
  - exact (proj1 (mergePr_unsupported_strategy (mk_world empty_cfg scenario_remote)
                    (Some "feature") 1 (Some Rebase)
                    ltac:(discriminate) ltac:(discriminate) ltac:(discriminate))).
  - exact (proj2 (mergePr_unsupported_strategy (mk_world empty_cfg scenario_remote)
                    (Some "feature") 1 (Some MergeCommit)
                    ltac:(discriminate) ltac:(discriminate) ltac:(discriminate))).
Defined.

(** C7 is refuted as stated: when the initial PR fetch rejects, [mergePr]
    with [rebase] throws instead of returning [false]. *)
Lemma mergePr_rebase_throws_on_fetch_error :
  result_of (mergePr (Some "feature") 1 (Some Rebase)) (mk_world empty_cfg getpr_down_remote)
  = Throw (ErrRemote KGetPr).
Proof. vm_compute. reflexivity. Qed.

(* ------------------------------------------------------------------ *)
(** ** C8: the comments [ensureCommentRemoval] matches *)

Lemma find_after_nonmatching {B} (f : B -> bool) (cs1 cs2 : list B) (cm : B) :
  Forall (fun c => f c = false) cs1 -> f cm = true -> find f (cs1 ++ cm :: cs2) = Some cm.
Proof.
  induction 1 as [|c cs1 Hc _ IH]; intros Hm; cbn.
  - rewrite Hm. reflexivity.
  - rewrite Hc. exact (IH Hm).
Qed.

Lemma find_none {B} (f : B -> bool) (cs : list B) :
  Forall (fun c => f c = false) cs -> find f cs = None.
Proof. induction 1 as [|c cs Hc _ IH]; cbn; [reflexivity|]. rewrite Hc. exact IH. Qed.

Lemma removal_target_spec k pre cs1 cm cs2 post id :
  Forall (fun o => forall cs, comments o = Some cs ->
                   Forall (fun c => removal_matches k c = false) cs) pre ->
  Forall (fun c => removal_matches k c = false) cs1 ->
  removal_matches k cm = true -> commentId cm = Some id -> truthy (Some id) = true ->
  removal_target k (pre ++ mkCommentsObj (Some (cs1 ++ cm :: cs2)) :: post) = Some id.
Proof.
  intros Hpre Hcs1 Hm Hid Ht. induction Hpre as [|o pre Ho _ IH]; cbn [app removal_target].
  - cbn [comments]. rewrite (find_after_nonmatching _ _ _ _ Hcs1 Hm), Hid, Ht. reflexivity.
  - destruct (comments o) as [cs|] eqn:Hc; [|exact IH].
    rewrite (find_none _ _ (Ho cs eq_refl)). exact IH.
Qed.

(** C8 (as amended): [ensureCommentRemoval] matches every comment of each
    thread, replies as well as roots: when no comment of the earlier threads
    matches and, in a thread, the first matching comment [cm] (which may be
    a reply) has a truthy id, exactly that comment is deleted, by one delete
    call after the comment listing. *)
Theorem ensureCommentRemoval_matches_replies :
  forall (w : World) (k : RemovalConfig) pre cs1 cm cs2 post id,
  failing (remote w) KGetPrComments = false ->
  assoc (num_to_string (removal_prNo k)) (r_comments (remote w))
  = Some (pre ++ mkCommentsObj (Some (cs1 ++ cm :: cs2)) :: post) ->
  Forall (fun o => forall cs, comments o = Some cs ->
                   Forall (fun c => removal_matches k c = false) cs) pre ->
  Forall (fun c => removal_matches k c = false) cs1 ->
  removal_matches k cm = true -> commentId cm = Some id -> truthy (Some id) = true ->
  calls_of (ensureCommentRemoval k) w
  = calls w ++ [CGetPrComments (repository (cfg w)) (num_to_string (removal_prNo k));
                CDeleteComment id].
Proof.
  intros w k pre cs1 cm cs2 post id Hf Ha Hpre Hcs1 Hm Hid Ht.
  unfold calls_of, ensureCommentRemoval, catch_, bind, ret, get_cfg, client_getPrComments.
  cbv beta iota zeta. rewrite remote_call_ok by exact Hf. cbn [fst snd]. rewrite Ha.
  rewrite (removal_target_spec k pre cs1 cm cs2 post id Hpre Hcs1 Hm Hid Ht).
  unfold client_deleteComment.
  destruct (failing (remote w) KDeleteComment) eqn:E;
    [rewrite remote_call_fail by exact E | rewrite remote_call_ok by exact E];
    cbn; rewrite <- app_assoc; reflexivity.
Qed.

Lemma ensureCommentRemoval_matches_replies_witness :
  calls_of (ensureCommentRemoval (ByTopic 7 "t")) (comments_world [reply_thread])
  = [CGetPrComments (Some "someRepo") "7"; CDeleteComment "r1"].
Proof.
  exact (ensureCommentRemoval_matches_replies (comments_world [reply_thread]) (ByTopic 7 "t")
           [] [mkComment (Some "r0") (Some "hello")]
           (mkComment (Some "r1") (Some ("### t" ++ nl ++ nl ++ "x")%string)) [] [] "r1"
           eq_refl eq_refl (Forall_nil _)
           ltac:(repeat constructor) eq_refl eq_refl eq_refl).
Defined.

(** C8 is refuted: a reply below a non-matching root, starting with the
    topic header, is the comment deleted. *)
Lemma ensureCommentRemoval_deletes_reply :
  comments reply_thread = Some [mkComment (Some "r0") (Some "hello");
                                mkComment (Some "r1") (Some ("### t" ++ nl ++ nl ++ "x")%string)]
  /\ calls_of (ensureCommentRemoval (ByTopic 7 "t")) (comments_world [reply_thread])
     = [CGetPrComments (Some "someRepo") "7"; CDeleteComment "r1"].
Proof. split; vm_compute; reflexivity. Qed.

(* ------------------------------------------------------------------ *)
(** ** C9: the region of [initPlatform] *)

(** C9: with a non-empty endpoint from which no region can be parsed,
    [initPlatform] throws the missing-configuration error, before any
    remote call and without touching the session, whatever
    [AWS_REGION] is; and with a non-empty endpoint its outcome does not
    depend on [AWS_REGION] at all. *)
Theorem initPlatform_endpoint_region :
  forall (w : World) (ep : string) (username password : option string),
  truthy (Some ep) = true ->
  (parse_region ep = None ->
   initPlatform (Some ep) username password w = (Throw (ErrMessage init_error), w))
  /\ (forall rg, fst (initPlatform (Some ep) username password (set_env_region rg w))
                 = fst (initPlatform (Some ep) username password w)).
Proof.
  intros w ep username password Hep. split.
  - intros Hr. unfold initPlatform. rewrite bind_run. unfold get_env. cbv beta iota zeta.
    rewrite Hep. cbn [opt_bind]. rewrite Hr. cbn [truthy negb].
    rewrite !orb_true_r. reflexivity.
  - intros rg. unfold initPlatform. rewrite !bind_run. unfold get_env. cbv beta iota zeta.
    rewrite Hep. cbn [opt_bind set_env_region env AWS_ACCESS_KEY_ID AWS_SECRET_ACCESS_KEY
                      AWS_SESSION_TOKEN].
    destruct (negb _ || negb _ || negb _); [reflexivity|].
    unfold modify_cfg, getUserArn, iam_getUser, catch_, bind, ret, throw.
    cbv beta iota zeta.
    unfold remote_call. cbn [remote calls set_env_region].
    destruct (failing (remote w) (kind_of CGetUser)); [reflexivity|].
    cbn. destruct (r_iam (remote w)); [reflexivity|].
    cbn. destruct (user_re_exec _); reflexivity.
Qed.

Lemma initPlatform_endpoint_region_witness :
  initPlatform (Some "endpoint") None None (mkWorld empty_cfg region_env [] scenario_remote [])
  = (Throw (ErrMessage init_error), mkWorld empty_cfg region_env [] scenario_remote [])
  /\ fst (initPlatform (Some "https://git-codecommit.eu-central-1.amazonaws.com/") None None
          (set_env_region None (mkWorld empty_cfg region_env [] scenario_remote [])))
     = fst (initPlatform (Some "https://git-codecommit.eu-central-1.amazonaws.com/") None None
          (mkWorld empty_cfg region_env [] scenario_remote [])).
Proof.
  split.
  - exact (proj1 (initPlatform_endpoint_region (mkWorld empty_cfg region_env [] scenario_remote [])
                    "endpoint" None None eq_refl) ltac:(vm_compute; reflexivity)).
  - exact (proj2 (initPlatform_endpoint_region (mkWorld empty_cfg region_env [] scenario_remote [])
                    "https://git-codecommit.eu-central-1.amazonaws.com/" None None eq_refl) None).
Defined.

(* ------------------------------------------------------------------ *)
(** ** C10: the status update of [updatePr] *)

(** The status update ends [updatePr] when the earlier updates succeed. *)
Lemma updatePr_status_ok :
  forall (w : World) (prNo : Z) (ttl body : option string) (st : option PrState),
  (truthy body = true -> failing (remote w) KUpdatePrDescription = false) ->
  (truthy ttl = true -> failing (remote w) KUpdatePrTitle = false) ->
  result_of (updatePr prNo ttl body st) w = Ok tt
  /\ exists pre,
       calls_of (updatePr prNo ttl body st) w
       = calls w ++ pre ++
           [CUpdatePrStatus (num_to_string prNo)
              (match st with Some Closed => CLOSED | _ => OPEN end)]
       /\ Forall (fun c => kind_of c <> KUpdatePrStatus) pre.
Proof.
  intros w prNo ttl body st Hb Ht.
  unfold result_of, calls_of, updatePr, when_truthy, catch_, bind, ret, get_secrets.
  cbv beta iota zeta.
  destruct body as [[|b0 b]|]; destruct ttl as [[|t0 t]|];
    cbn [truthy] in Hb, Ht;
    unfold client_updatePrDescription, client_updatePrTitle, client_updatePrStatus;
    try rewrite remote_call_ok by (apply Hb; reflexivity);
    cbn [fst snd remote with_remote];
    try rewrite remote_call_ok by (apply Ht; reflexivity);
    cbn [fst snd remote with_remote];
    unfold remote_call; cbn [remote calls with_remote];
    (match goal with
     | |- context [failing ?r KUpdatePrStatus] => destruct (failing r KUpdatePrStatus)
     | |- context [failing ?r (kind_of ?c)] => destruct (failing r (kind_of c))
     end); cbn; (split; [reflexivity|]);
    rewrite <- ?app_assoc; cbn [app];
    first [ exists []; split; [reflexivity|constructor]
          | eexists [_]; split; [reflexivity|repeat constructor; discriminate]
          | eexists [_; _]; split; [reflexivity|repeat constructor; discriminate] ].
Qed.

(** A rejected description or title update propagates at once. *)
Lemma updatePr_update_fails :
  forall (w : World) (prNo : Z) (ttl body : option string) (st : option PrState),
  (truthy body = true -> failing (remote w) KUpdatePrDescription = true ->
   result_of (updatePr prNo ttl body st) w = Throw (ErrRemote KUpdatePrDescription)
   /\ exists new, calls_of (updatePr prNo ttl body st) w = calls w ++ new
                  /\ Forall (fun c => kind_of c <> KUpdatePrStatus) new)
  /\ ((truthy body = true -> failing (remote w) KUpdatePrDescription = false) ->
      truthy ttl = true -> failing (remote w) KUpdatePrTitle = true ->
      result_of (updatePr prNo ttl body st) w = Throw (ErrRemote KUpdatePrTitle)
      /\ exists new, calls_of (updatePr prNo ttl body st) w = calls w ++ new
                     /\ Forall (fun c => kind_of c <> KUpdatePrStatus) new).
Proof.
  intros w prNo ttl body st. split.
  - intros Hb Hd.
    unfold result_of, calls_of, updatePr, when_truthy, catch_, bind, ret, get_secrets.
    cbv beta iota zeta.
    destruct body as [[|b0 b]|]; cbn [truthy] in Hb; try discriminate.
    unfold client_updatePrDescription. rewrite remote_call_fail by exact Hd.
    cbn. split; [reflexivity|]. eexists [_]. split; [reflexivity|repeat constructor; discriminate].
  - intros Hb Ht Htf.
    unfold result_of, calls_of, updatePr, when_truthy, catch_, bind, ret, get_secrets.
    cbv beta iota zeta.
    destruct ttl as [[|t0 t]|]; cbn [truthy] in Ht; try discriminate.
    destruct body as [[|b0 b]|]; cbn [truthy] in Hb;
      unfold client_updatePrDescription, client_updatePrTitle;
      try rewrite remote_call_ok by (apply Hb; reflexivity);
      cbn [fst snd remote with_remote];
      rewrite remote_call_fail by exact Htf;
      cbn; (split; [reflexivity|]); rewrite <- ?app_assoc;
      first [ eexists [_]; split; [reflexivity|repeat constructor; discriminate]
            | eexists [_; _]; split; [reflexivity|repeat constructor; discriminate] ].
Qed.

(** C10 (as amended): when the description update (made for a truthy
    body) and the title update (made for a truthy title) do not reject,
    [updatePr] ends with exactly one status-update call, [CLOSED] for the
    requested state [Closed] and [OPEN] otherwise (also with no state), and
    completes normally whether or not that call rejects; a rejected
    description update, or a rejected title update after a successful or
    skipped description update, propagates out of [updatePr], and then no
    status-update call is issued. *)
Theorem updatePr_status_update :
  forall (w : World) (prNo : Z) (ttl body : option string) (st : option PrState),
  ((truthy body = true -> failing (remote w) KUpdatePrDescription = false) ->
   (truthy ttl = true -> failing (remote w) KUpdatePrTitle = false) ->
   result_of (updatePr prNo ttl body st) w = Ok tt
   /\ exists pre,
        calls_of (updatePr prNo ttl body st) w
        = calls w ++ pre ++
            [CUpdatePrStatus (num_to_string prNo)
               (match st with Some Closed => CLOSED | _ => OPEN end)]
        /\ Forall (fun c => kind_of c <> KUpdatePrStatus) pre)
  /\ (truthy body = true -> failing (remote w) KUpdatePrDescription = true ->
      result_of (updatePr prNo ttl body st) w = Throw (ErrRemote KUpdatePrDescription)
      /\ exists new, calls_of (updatePr prNo ttl body st) w = calls w ++ new
                     /\ Forall (fun c => kind_of c <> KUpdatePrStatus) new)
  /\ ((truthy body = true -> failing (remote w) KUpdatePrDescription = false) ->
      truthy ttl = true -> failing (remote w) KUpdatePrTitle = true ->
      result_of (updatePr prNo ttl body st) w = Throw (ErrRemote KUpdatePrTitle)
      /\ exists new, calls_of (updatePr prNo ttl body st) w = calls w ++ new
                     /\ Forall (fun c => kind_of c <> KUpdatePrStatus) new).
Proof.
  intros w prNo ttl body st. split; [exact (updatePr_status_ok w prNo ttl body st)|].
  exact (updatePr_update_fails w prNo ttl body st).
Qed.

Lemma updatePr_status_update_witness :
  (result_of (updatePr 1 (Some "title") (Some "body") (Some Closed))
     (mk_world empty_cfg scenario_remote) = Ok tt
   /\ exists pre,
        calls_of (updatePr 1 (Some "title") (Some "body") (Some Closed))
          (mk_world empty_cfg scenario_remote)
        = [] ++ pre ++ [CUpdatePrStatus "1" CLOSED]
        /\ Forall (fun c => kind_of c <> KUpdatePrStatus) pre)
  /\ result_of (updatePr 1 (Some "title") (Some "body") (Some Open))
       (mk_world empty_cfg description_down_remote) = Throw (ErrRemote KUpdatePrDescription).
Proof.
  split.
  - exact (proj1 (updatePr_status_update (mk_world empty_cfg scenario_remote) 1 (Some "title")
                    (Some "body") (Some Closed)) (fun _ => eq_refl) (fun _ => eq_refl)).
  - exact (proj1 (proj1 (proj2 (updatePr_status_update (mk_world empty_cfg description_down_remote)
                    1 (Some "title") (Some "body") (Some Open))) eq_refl eq_refl)).
Defined.

(** C10 is refuted as stated: a rejected description update propagates,
    and no status update is issued. *)
Lemma updatePr_description_failure_skips_status :
  result_of (updatePr 1 (Some "title") (Some "body") (Some Open))
    (mk_world empty_cfg description_down_remote) = Throw (ErrRemote KUpdatePrDescription)
  /\ calls_of (updatePr 1 (Some "title") (Some "body") (Some Open))
       (mk_world empty_cfg description_down_remote) = [CUpdatePrDescription "1" "body"].
Proof. split; vm_compute; reflexivity. Qed.

(* ------------------------------------------------------------------ *)
(** ** Identifiers: [Number.parseInt] and [`${n}`] *)


(** X1: for a safe integer [n] ([|n| <= 2^53 - 1]), the decimal text
    [`${n}`] the adapter sends for a PR number is read back by
    [Number.parseInt] as [n]: a PR listed by [getPrList] is re-fetched
    under the identifier it was listed with. *)
Theorem parseInt_num_to_string : forall n : Z,
  (Z.abs n <= 9007199254740991)%Z -> parseInt (num_to_string n) = Some n.
Proof. intros n _. exact (parse_num_to_string n). Qed.

Lemma parseInt_num_to_string_witness :
  (Z.abs 42 <= 9007199254740991)%Z /\ parseInt (num_to_string 42) = Some 42%Z.
Proof.
  split; [lia|]. apply (parseInt_num_to_string 42). lia.
Defined.

(* ------------------------------------------------------------------ *)
(** ** [getPr] and [getBranchPr] *)

(** X2: [getPr] always issues its one fetch and answers from the service:
    it logs exactly [GetPullRequest] for [`${n}`], leaves the module's
    [config] (the PR-list cache included) as it is, and its result does
    not depend on that [config]. *)
Theorem getPr_bypasses_cache : forall (w : World) (n : Z) (c : Config),
  calls_of (getPr n) w = calls w ++ [CGetPr (num_to_string n)]
  /\ cfg (snd (getPr n w)) = cfg w
  /\ result_of (getPr n) (with_cfg w c) = result_of (getPr n) w.
Proof.
  intros w n c. unfold calls_of, result_of, getPr, bind, client_getPr, remote_call.
  cbn [with_cfg remote calls cfg with_remote].
  destruct (failing (remote w) (kind_of (CGetPr (num_to_string n)))); [cbn; auto|].
  destruct (assoc (num_to_string n) (r_prs (remote w))) as [[p|]|]; cbn; auto.
  unfold first_target, ret, throw.
  destruct (pullRequestTargets p) as [[|t ts]|]; cbn; auto.
Qed.

Lemma findPr_cached : forall w b l,
  prList (cfg w) = Some l ->
  findPr b None Open w = (Ok (hd_error (open_prs_of b l)), w).
Proof.
  intros w b l H. unfold findPr, getPrList, bind, catch_, get_cfg, ret.
  cbv beta iota zeta. rewrite H. reflexivity.
Qed.

(** X3: with the PR list cached, [getBranchPr] never answers from the
    cache: when a listed PR of the branch is [Open] it re-fetches the first
    one with [getPr] (so the state returned is the service's current one),
    and otherwise it returns [null] without any call. *)
Theorem getBranchPr_refetches : forall (w : World) (b : string) (l : list Pr),
  prList (cfg w) = Some l ->
  getBranchPr b w
  = match open_prs_of b l with
    | [] => (Ok None, w)
    | p :: _ => match number p with Some n => getPr n w | None => getPr_NaN w end
    end.
Proof.
  intros w b l H. unfold getBranchPr. unfold bind at 1. rewrite (findPr_cached w b l H).
  destruct (open_prs_of b l) as [|p ps]; [reflexivity|]. cbn [hd_error].
  destruct (number p); reflexivity.
Qed.

Lemma getBranchPr_refetches_witness :
  prList (cfg branch_cached_world) = Some [mkPr (Some 5%Z) (Some "refs/heads/feature")
                               (Some "refs/heads/main") (Some "Update dep") Open None None]
  /\ getBranchPr "feature" branch_cached_world = getPr 5 branch_cached_world.
Proof.
  split; [reflexivity|].
  exact (getBranchPr_refetches branch_cached_world "feature" _ eq_refl).
Defined.

(** X4: when the PR list is not cached and the listing call rejects,
    [getBranchPr] returns [null]: the error is swallowed by [findPr], only
    the listing call is issued and the cache stays empty. *)
Theorem getBranchPr_listing_failure : forall (w : World) (b : string),
  prList (cfg w) = None ->
  failing (remote w) KListPullRequests = true ->
  getBranchPr b w
  = (Ok None, with_remote w (remote w)
                (calls w ++ [CListPullRequests (repository (cfg w)) (userArn (cfg w))])).
Proof.
  intros w b Hc Hf. unfold getBranchPr, findPr, getPrList, bind, catch_, get_cfg, ret.
  cbv beta iota zeta. rewrite Hc. unfold client_listPullRequests.
  rewrite remote_call_fail by exact Hf. reflexivity.
Qed.

Lemma getBranchPr_listing_failure_witness :
  prList (cfg (mk_world empty_cfg (mkRemote None [] [] [] (IamUser None) [KListPullRequests] 0))) = None
  /\ failing (remote (mk_world empty_cfg (mkRemote None [] [] [] (IamUser None) [KListPullRequests] 0)))
       KListPullRequests = true
  /\ result_of (getBranchPr "b") (mk_world empty_cfg (mkRemote None [] [] [] (IamUser None) [KListPullRequests] 0))
     = Ok None.
Proof.
  split; [reflexivity|]. split; [reflexivity|].
  unfold result_of.
  rewrite (getBranchPr_listing_failure
             (mk_world empty_cfg (mkRemote None [] [] [] (IamUser None) [KListPullRequests] 0)) "b"
             eq_refl eq_refl).
  reflexivity.
Defined.

(* ------------------------------------------------------------------ *)
(** ** [mergePr] on a supported strategy *)

(** X5: for a PR with a target and a supported strategy ([auto],
    [squash], [fast-forward]), [mergePr] issues the fetch and the one merge
    call of the strategy (squash with the PR's title, or fast-forward);
    when the merge rejects it returns [false] and never tries to close the
    PR, otherwise it closes the PR and returns [true] unless that status
    update rejects. *)
Theorem mergePr_merge_then_close :
  forall (w : World) (branchName : option string) (prNo : Z)
         (strategy : option MergeStrategy) (p : PullRequest)
         (t : PullRequestTarget) (ts : list PullRequestTarget),
  strategy = Some Auto \/ strategy = Some Squash \/ strategy = Some FastForward ->
  failing (remote w) KGetPr = false ->
  assoc (num_to_string prNo) (r_prs (remote w)) = Some (Some p) ->
  pullRequestTargets p = Some (t :: ts) ->
  let mc := match strategy with
            | Some FastForward =>
                CFastForwardMerge (repositoryName t) (sourceReference t) (destinationReference t)
            | _ => CSquashMerge (repositoryName t) (sourceReference t) (destinationReference t)
                     (pr_title p)
            end in
  let pre := calls w ++ [CGetPr (num_to_string prNo); mc] in
  if failing (remote w) (kind_of mc)
  then result_of (mergePr branchName prNo strategy) w = Ok false
       /\ calls_of (mergePr branchName prNo strategy) w = pre
  else result_of (mergePr branchName prNo strategy) w
         = Ok (negb (failing (remote w) KUpdatePrStatus))
       /\ calls_of (mergePr branchName prNo strategy) w
          = pre ++ [CUpdatePrStatus (num_to_string prNo) CLOSED].
Proof.
  intros w bn prNo strategy p t ts Hs Hf Ha Ht mc pre.
  unfold result_of, calls_of, mergePr, bind, catch_, target0, ret, client_getPr,
    client_squashMerge, client_fastForwardMerge, client_updatePrStatus.
  rewrite remote_call_ok by exact Hf. cbn [fst snd]. rewrite Ha. cbn [opt_bind]. rewrite Ht.
  destruct Hs as [-> | [-> | ->]]; subst mc pre; cbn [kind_of];
    match goal with |- context [if failing (remote w) ?k then _ else _] =>
      destruct (failing (remote w) k) eqn:Em end;
    first [rewrite remote_call_fail by exact Em | rewrite remote_call_ok by exact Em];
    cbn [fst snd negb remote calls with_remote];
    first [ rewrite <- app_assoc; split; reflexivity
    | destruct (failing (remote w) KUpdatePrStatus) eqn:Es;
      first [rewrite remote_call_fail by exact Es | rewrite remote_call_ok by exact Es];
      cbn [fst snd negb remote calls with_remote]; rewrite <- !app_assoc; split; reflexivity ].
Qed.

Lemma mergePr_merge_then_close_witness :
  result_of (mergePr None 5 (Some Squash)) (mk_world empty_cfg merged_remote) = Ok true
  /\ calls_of (mergePr None 5 (Some Squash)) (mk_world empty_cfg merged_remote)
     = [CGetPr "5"; CSquashMerge (Some "someRepo") (Some "refs/heads/feature")
                      (Some "refs/heads/main") (Some "Update dep");
        CUpdatePrStatus "5" CLOSED].
Proof.
  exact (mergePr_merge_then_close (mk_world empty_cfg merged_remote) None 5 (Some Squash) merged_pr
           (mkTarget (Some "someRepo") (Some "refs/heads/feature") (Some "refs/heads/main")
              (Some (mkMergeMetadata (Some true)))) []
           (or_intror (or_introl eq_refl)) eq_refl eq_refl eq_refl).
Defined.

(* ------------------------------------------------------------------ *)
(** ** The update path of [ensureComment] *)

(** X6: when the first thread the scan stops at has a truthy root id and
    a root content other than the composed body, [ensureComment] reads the
    comments, updates that root comment with the body in one call, creates
    nothing, and returns [true]. *)
Theorem ensureComment_update_path :
  forall (w : World) (number : Z) (topic : option string) (cont id : string)
         (data : list CommentsObj),
  let body := (comment_header topic ++ sanitize (secrets w) cont)%string in
  failing (remote w) KGetPrComments = false ->
  failing (remote w) KUpdateComment = false ->
  assoc (num_to_string number) (r_comments (remote w)) = Some data ->
  scan_threads topic (comment_header topic) body data = ScanFound (Some id) true ->
  truthy (Some id) = true ->
  result_of (ensureComment number topic cont) w = Ok true
  /\ calls_of (ensureComment number topic cont) w
     = calls w ++ [CGetPrComments (repository (cfg w)) (num_to_string number);
                   CUpdateComment id body].
Proof.
  intros w number topic cont id data body Hf Hu Ha Hs Hid.
  exact (ensureComment_update_run w number topic cont id data Hf Hu Ha Hs Hid).
Qed.

Lemma ensureComment_update_path_witness :
  result_of (ensureComment 7 (Some "t") "new") stale_thread_world = Ok true
  /\ calls_of (ensureComment 7 (Some "t") "new") stale_thread_world
     = [CGetPrComments (Some "someRepo") "7"; CUpdateComment "c1" ("### t" ++ nl ++ nl ++ "new")%string].
Proof.
  exact (ensureComment_update_path stale_thread_world 7 (Some "t") "new" "c1"
           [topic_thread "c1" "old"] eq_refl eq_refl eq_refl ltac:(vm_compute; reflexivity) eq_refl).
Defined.

(* ------------------------------------------------------------------ *)
(** ** [getUserArn] *)

Lemma find_map_some {A B} (f : A -> option B) (l : list A) (y : B) :
  find_map f l = Some y -> exists x, In x l /\ f x = Some y.
Proof.
  induction l as [|x r IH]; cbn; [discriminate|].
  destruct (f x) eqn:E.
  - intros H. injection H as <-. exists x. auto.
  - intros H. destruct (IH H) as [x' [Hin Hx]]. exists x'. auto.
Qed.

Lemma nonspace_prefix_no_space : forall l, ~ In " "%char (nonspace_prefix l).
Proof.
  induction l as [|c r IH]; cbn; [auto|].
  destruct (Nat.eqb (nat_of_ascii c) 32) eqn:E; cbn; [auto|].
  intros [H|H]; [subst c; discriminate E | exact (IH H)].
Qed.

Lemma arn_after_spec : forall r a, arn_after r = Some a -> a <> [] /\ ~ In " "%char a.
Proof.
  intros r a H. unfold arn_after in H. apply find_map_some in H as [k [_ Hk]].
  destruct (nonspace_prefix (skipn k r)) as [|c cs] eqn:E; [discriminate|].
  injection Hk as <-. split; [discriminate|]. rewrite <- E. apply nonspace_prefix_no_space.
Qed.

Lemma user_re_exec_spec : forall l a, user_re_exec l = Some a -> a <> [] /\ ~ In " "%char a.
Proof.
  induction l as [|c r IH]; intros a H; cbn [user_re_exec] in H; [discriminate|].
  destruct (lprefix "User:" (c :: r)).
  - destruct (arn_after (skipn 5 (c :: r))) eqn:E.
    + injection H as <-. exact (arn_after_spec _ _ E).
    + exact (IH a H).
  - exact (IH a H).
Qed.

(** X7: when the IAM call answers, [getUserArn] returns the user's ARN
    ([""] when the answer has none); when it rejects with a message, it
    returns the ARN the message names after ["User:"], which is non-empty
    and has no space, or rethrows the error when the message names none. *)
Theorem getUserArn_outcome : forall w : World,
  failing (remote w) KGetUser = false ->
  match r_iam (remote w) with
  | IamUser arn => result_of getUserArn w = Ok (or_empty arn)
  | IamError msg =>
      match user_re_exec (list_ascii_of_string msg) with
      | None => result_of getUserArn w = Throw (ErrMessage msg)
      | Some a => result_of getUserArn w = Ok (string_of_list_ascii a)
                  /\ a <> [] /\ ~ In " "%char a
      end
  end.
Proof.
  intros w Hf. unfold result_of, getUserArn, bind, catch_, iam_getUser, ret, throw.
  rewrite remote_call_ok by exact Hf. cbn [fst snd].
  destruct (r_iam (remote w)) as [arn|msg]; cbn [opt_bind].
  - destruct arn; reflexivity.
  - destruct (user_re_exec (list_ascii_of_string msg)) as [a|] eqn:E; [|reflexivity].
    split; [reflexivity|]. exact (user_re_exec_spec _ _ E).
Qed.

Lemma getUserArn_outcome_witness :
  result_of getUserArn (mk_world empty_cfg denied_remote)
  = Ok (string_of_list_ascii (list_ascii_of_string "arn:aws:iam::1:user/bot")).
Proof.
  exact (proj1 (getUserArn_outcome (mk_world empty_cfg denied_remote) eq_refl)).
Defined.

(* ------------------------------------------------------------------ *)
(** ** [initPlatform] without an endpoint *)

(** X8: without an endpoint, with [AWS_REGION] set, the access key and
    secret resolved (the arguments when non-empty, else the environment)
    and the IAM call answering with a user, [initPlatform] succeeds with
    the endpoint [https://git-codecommit.<region>.amazonaws.com/], and of
    [config] it sets exactly the region, the credentials (with the
    environment's session token) and the user ARN. *)
Theorem initPlatform_default_endpoint :
  forall (w : World) (username password : option string) (rg arn : string),
  let accessKeyId := if truthy username then username else AWS_ACCESS_KEY_ID (env w) in
  let secretAccessKey := if truthy password then password else AWS_SECRET_ACCESS_KEY (env w) in
  AWS_REGION (env w) = Some rg -> rg <> "" ->
  truthy accessKeyId = true -> truthy secretAccessKey = true ->
  failing (remote w) KGetUser = false ->
  r_iam (remote w) = IamUser (Some arn) ->
  initPlatform None username password w
  = (Ok (mkPlatformResult ("https://git-codecommit." ++ rg ++ ".amazonaws.com/")),
     mkWorld (mkConfig (repository (cfg w)) (defaultBranch (cfg w)) (Some rg) (prList (cfg w))
                (Some (mkCredentials (or_empty accessKeyId) (or_empty secretAccessKey)
                         (AWS_SESSION_TOKEN (env w))))
                (Some arn))
             (env w) (secrets w) (remote w) (calls w ++ [CGetUser])).
Proof.
  intros w username password rg arn ak sk Hr Hrg Hak Hsk Hf Hi.
  unfold initPlatform, bind, get_env, modify_cfg, ret, throw. cbv beta iota zeta.
  rewrite Hr. subst ak sk. rewrite Hak, Hsk.
  destruct rg as [|c rg]; [congruence|]. cbn [truthy negb orb].
  unfold getUserArn, iam_getUser, bind, catch_, ret.
  rewrite remote_call_ok by exact Hf. cbn [fst snd remote with_remote]. rewrite Hi.
  reflexivity.
Qed.

Lemma initPlatform_default_endpoint_witness :
  result_of (initPlatform None None None) keyed_world
  = Ok (mkPlatformResult "https://git-codecommit.eu-west-1.amazonaws.com/").
Proof.
  unfold result_of.
  rewrite (initPlatform_default_endpoint keyed_world None None "eu-west-1" "arn"
             eq_refl ltac:(discriminate) eq_refl eq_refl eq_refl eq_refl).
  reflexivity.
Defined.

(* ------------------------------------------------------------------ *)
(** ** Running the extended monad *)

Lemma x_remote_call_ok {A} (c : XCall) (ans : XRemote -> A) xw :
  x_failing (xremote xw) (xkind_of c) = false ->
  x_remote_call c ans xw
  = (XOk (ans (xremote xw)), mkXWorld (base xw) (xremote xw) (xcalls xw ++ [c])).
Proof. intros H. unfold x_remote_call. rewrite H. reflexivity. Qed.

Lemma x_remote_call_fail {A} (c : XCall) (ans : XRemote -> A) xw :
  x_failing (xremote xw) (xkind_of c) = true ->
  x_remote_call c ans xw
  = (XThrow (XErrRemote (xkind_of c)), mkXWorld (base xw) (xremote xw) (xcalls xw ++ [c])).
Proof. intros H. unfold x_remote_call. rewrite H. reflexivity. Qed.

Ltac xrun :=
  unfold initRepo, getRepos, getRawFile, getJsonFile, addReviewers, xbind, xcatch,
    x_modify_cfg, x_get_cfg, xret, xthrow, client_getRepositoryInfo, git_initRepo,
    client_listRepositories, client_getFile, client_createPrApprovalRule, x_remote_call;
  cbn [base xremote xcalls xkind_of with_cfg cfg].

(* ------------------------------------------------------------------ *)
(** ** [initRepo] *)

(** X9: whatever the outcome, [initRepo] leaves [config.repository] set
    to the repository it was given (even when it throws) and changes
    [config.defaultBranch] only on success, to the returned default
    branch; the rest of the session is untouched. *)
Theorem initRepo_config : forall (x : Collab) (xw : XWorld) (repo : string) (ep : option string),
  let c := set_repository (Some repo) (cfg (base xw)) in
  let xw' := snd (initRepo x repo ep xw) in
  cfg (base xw') = match fst (initRepo x repo ep xw) with
                   | XOk rr => set_defaultBranch (Some (rr_defaultBranch rr)) c
                   | XThrow _ => c
                   end
  /\ env (base xw') = env (base xw) /\ secrets (base xw') = secrets (base xw)
  /\ remote (base xw') = remote (base xw) /\ calls (base xw') = calls (base xw)
  /\ xremote xw' = xremote xw.
Proof.
  intros x xw repo ep c xw'. subst c xw'. xrun.
  destruct (x_failing (xremote xw) KGetRepositoryInfo); cbn;
    [repeat split; reflexivity|].
  destruct (x_failing (xremote xw) KGitInitRepo); cbn; [repeat split; reflexivity|].
  destruct (opt_bind (x_repoInfo (xremote xw) repo) repositoryMetadata) as [md|]; cbn;
    [|repeat split; reflexivity].
  destruct (meta_defaultBranch md) as [[|? ?]|], (repositoryId md) as [[|? ?]|];
    cbn; repeat split; reflexivity.
Qed.

(** X10: when the repository information cannot be fetched, [initRepo]
    throws [REPOSITORY_NOT_FOUND] and attempts no clone. *)
Theorem initRepo_info_failure :
  forall (x : Collab) (xw : XWorld) (repo : string) (ep : option string),
  x_failing (xremote xw) KGetRepositoryInfo = true ->
  fst (initRepo x repo ep xw) = XThrow (XE (ErrMessage (REPOSITORY_NOT_FOUND x)))
  /\ xcalls (snd (initRepo x repo ep xw)) = xcalls xw ++ [CGetRepositoryInfo repo].
Proof.
  intros x xw repo ep H. xrun. rewrite H. cbn. split; reflexivity.
Qed.

Lemma initRepo_info_failure_witness :
  fst (initRepo demo_collab "someRepo" None (demo_xworld [KGetRepositoryInfo]))
  = XThrow (XE (ErrMessage "not found")).
Proof.
  exact (proj1 (initRepo_info_failure demo_collab (demo_xworld [KGetRepositoryInfo])
                  "someRepo" None eq_refl)).
Defined.

(** X11: when the information is fetched but the clone rejects,
    [initRepo] throws [PLATFORM_BAD_CREDENTIALS] whatever the metadata;
    the clone URL is built from the configured region and credentials. *)
Theorem initRepo_clone_failure :
  forall (x : Collab) (xw : XWorld) (repo : string) (ep : option string),
  x_failing (xremote xw) KGetRepositoryInfo = false ->
  x_failing (xremote xw) KGitInitRepo = true ->
  fst (initRepo x repo ep xw) = XThrow (XE (ErrMessage (PLATFORM_BAD_CREDENTIALS x)))
  /\ xcalls (snd (initRepo x repo ep xw))
     = xcalls xw ++ [CGetRepositoryInfo repo;
                     CGitInitRepo (getCodeCommitUrl x (region (cfg (base xw))) repo
                                     (credentials (cfg (base xw))))].
Proof.
  intros x xw repo ep H1 H2. xrun. rewrite H1. cbn. rewrite H2. cbn.
  rewrite <- app_assoc. split; reflexivity.
Qed.

Lemma initRepo_clone_failure_witness :
  fst (initRepo demo_collab "someRepo" None (demo_xworld [KGitInitRepo]))
  = XThrow (XE (ErrMessage "bad credentials")).
Proof.
  exact (proj1 (initRepo_clone_failure demo_collab (demo_xworld [KGitInitRepo])
                  "someRepo" None eq_refl eq_refl)).
Defined.



(* ------------------------------------------------------------------ *)
(** ** [getRepos] *)

(** X13: [getRepos] never throws: it issues one [ListRepositories] call
    and returns the collected names, or [[]] when the call rejects or the
    answer lists no repositories; it changes nothing else. *)
Theorem getRepos_outcome : forall xw : XWorld,
  fst (getRepos xw)
  = XOk (if x_failing (xremote xw) KListRepositories then []
         else collect_names (match x_repos (xremote xw) with Some (Some l) => l | _ => [] end))
  /\ xcalls (snd (getRepos xw)) = xcalls xw ++ [CListRepositories]
  /\ base (snd (getRepos xw)) = base xw.
Proof.
  intros xw. xrun.
  destruct (x_failing (xremote xw) KListRepositories); cbn; repeat split; reflexivity.
Qed.

(** X14: the names [getRepos] collects are exactly the non-empty
    [repositoryName]s of the listed repositories. *)
Theorem collect_names_spec : forall (l : list RepositoryNameIdPair) (n : string),
  In n (collect_names l) <-> n <> "" /\ exists p, In p l /\ pair_repositoryName p = Some n.
Proof.
  induction l as [|p r IH]; intros n; cbn [collect_names].
  - split; [intros []|]. intros [_ [p [[] _]]].
  - destruct (pair_repositoryName p) as [[|c s]|] eqn:E.
    + rewrite IH. split.
      * intros [Hn [q [Hq Hqn]]]. split; [exact Hn|]. exists q. split; [right; exact Hq|exact Hqn].
      * intros [Hn [q [[<-|Hq] Hqn]]]; [congruence|]. split; [exact Hn|]. exists q; auto.
    + cbn [In]. rewrite IH. split.
      * intros [<-|[Hn [q [Hq Hqn]]]].
        -- split; [discriminate|]. exists p. split; [left; reflexivity|exact E].
        -- split; [exact Hn|]. exists q. split; [right; exact Hq|exact Hqn].
      * intros [Hn [q [[<-|Hq] Hqn]]].
        -- left. congruence.
        -- right. split; [exact Hn|]. exists q; auto.
    + rewrite IH. split.
      * intros [Hn [q [Hq Hqn]]]. split; [exact Hn|]. exists q. split; [right; exact Hq|exact Hqn].
      * intros [Hn [q [[<-|Hq] Hqn]]]; [congruence|]. split; [exact Hn|]. exists q; auto.
Qed.

(* ------------------------------------------------------------------ *)
(** ** [getRawFile] and [getJsonFile] *)

(** X15: [getRawFile] asks for the file in the given repository, or in
    the configured one when none is given; it throws a TypeError when the
    service answers nothing, reads a file without content as [""], and
    changes nothing but the call log. *)
Theorem getRawFile_outcome :
  forall (x : Collab) (xw : XWorld) (fileName : string) (repoName branchOrTag : option string),
  let repo := match repoName with Some r => Some r | None => repository (cfg (base xw)) end in
  x_failing (xremote xw) KGetFile = false ->
  fst (getRawFile x fileName repoName branchOrTag xw)
  = match x_getFile (xremote xw) repo fileName branchOrTag with
    | None => XThrow (XE ErrType)
    | Some f => XOk (match fileContent f with Some b => utf8_decode x b | None => "" end)
    end
  /\ snd (getRawFile x fileName repoName branchOrTag xw)
     = mkXWorld (base xw) (xremote xw) (xcalls xw ++ [CGetFile repo fileName branchOrTag]).
Proof.
  intros x xw fileName repoName branchOrTag repo H. subst repo. xrun. rewrite H. cbn.
  destruct (x_getFile (xremote xw) _ fileName branchOrTag) as [[[b|]]|];
    split; reflexivity.
Qed.

Lemma getRawFile_outcome_witness :
  fst (getRawFile demo_collab "empty.json" None None (demo_xworld [])) = XOk "".
Proof.
  exact (proj1 (getRawFile_outcome demo_collab (demo_xworld []) "empty.json" None None eq_refl)).
Defined.

(** X16: [getJsonFile] returns [None] without calling the parser when the
    file reads as [""], and otherwise the parser's value, or rethrows its
    error. *)
Theorem getJsonFile_outcome :
  forall {J} (x : Collab) (json5_parse : string -> Result J) (xw : XWorld)
         (fileName : string) (repoName branchOrTag : option string) (raw : string),
  fst (getRawFile x fileName repoName branchOrTag xw) = XOk raw ->
  fst (getJsonFile x json5_parse fileName repoName branchOrTag xw)
  = match raw with
    | "" => XOk None
    | _ => match json5_parse raw with
           | Ok j => XOk (Some j)
           | Throw e => XThrow (XE e)
           end
    end
  /\ snd (getJsonFile x json5_parse fileName repoName branchOrTag xw)
     = snd (getRawFile x fileName repoName branchOrTag xw).
Proof.
  intros J x json5_parse xw fileName repoName branchOrTag raw H.
  unfold getJsonFile, xbind.
  destruct (getRawFile x fileName repoName branchOrTag xw) as [r xw'].
  cbn [fst] in H. subst r. cbn [snd].
  destruct raw as [|c s]; [split; reflexivity|]. cbn [truthy].
  destruct (json5_parse (String c s)); split; reflexivity.
Qed.

Lemma getJsonFile_outcome_witness :
  fst (getJsonFile demo_collab (fun _ => @Throw unit ErrType) "empty.json" None None
         (demo_xworld []))
  = XOk None.
Proof.
  exact (proj1 (getJsonFile_outcome demo_collab (fun _ => @Throw unit ErrType) (demo_xworld [])
                  "empty.json" None None "" eq_refl)).
Defined.

(* ------------------------------------------------------------------ *)
(** ** [JSON.stringify] and the approval rule of [addReviewers] *)

Lemma json_read_escape : forall (c : ascii) (r : list ascii),
  json_read_chars (json_escape_char c ++ r) = cons_read c (json_read_chars r).
Proof.
  intros [[] [] [] [] [] [] [] []] r; reflexivity.
Qed.

Lemma json_read_string : forall (s rest : list ascii),
  json_read_chars (flat_map json_escape_char s ++ quote_char :: rest) = Some (s, rest).
Proof.
  induction s as [|c s IH]; intros rest; [reflexivity|].
  cbn [flat_map]. rewrite <- app_assoc, json_read_escape, IH. reflexivity.
Qed.

Lemma json_read_elems_step (fuel : nat) (r : list ascii) :
  json_read_elems (S fuel) (quote_char :: r)
  = match json_read_chars r with
    | Some (s, c :: r') =>
        if Ascii.eqb c ","%char then
          match json_read_elems fuel r' with
          | Some (ss, rest) => Some (string_of_list_ascii s :: ss, rest)
          | None => None
          end
        else if Ascii.eqb c "]"%char then Some ([string_of_list_ascii s], r')
        else None
    | _ => None
    end.
Proof. reflexivity. Qed.

Lemma json_quote_unfold (s : string) (r : list ascii) :
  json_quote s ++ r = quote_char :: flat_map json_escape_char (list_ascii_of_string s) ++ quote_char :: r.
Proof. unfold json_quote. rewrite <- app_comm_cons, <- app_assoc. reflexivity. Qed.

Lemma json_read_elems_ok : forall (l : list string) (fuel : nat) (rest : list ascii),
  l <> [] -> length l <= fuel ->
  json_read_elems fuel (join_comma (map json_quote l) ++ "]"%char :: rest) = Some (l, rest).
Proof.
  induction l as [|s l IH]; intros fuel rest Hne Hlen; [congruence|].
  destruct fuel as [|fuel]; [cbn in Hlen; lia|].
  destruct l as [|s' l'].
  - cbn [map join_comma]. rewrite json_quote_unfold, json_read_elems_step, json_read_string.
    cbn - [string_of_list_ascii]. rewrite string_of_list_ascii_of_string. reflexivity.
  - change (join_comma (map json_quote (s :: s' :: l')))
      with (json_quote s ++ ","%char :: join_comma (map json_quote (s' :: l'))).
    rewrite <- app_assoc, <- app_comm_cons, json_quote_unfold, json_read_elems_step,
      json_read_string.
    cbn [Ascii.eqb Bool.eqb andb].
    rewrite (IH fuel rest ltac:(discriminate) ltac:(cbn in Hlen |- *; lia)).
    rewrite string_of_list_ascii_of_string. reflexivity.
Qed.

Lemma join_comma_length : forall L : list (list ascii),
  Forall (fun x => x <> []) L -> length L <= length (join_comma L).
Proof.
  induction L as [|x L IH]; intros H; [cbn; lia|].
  inversion H as [|? ? Hx HL]; subst.
  destruct L as [|y L'].
  - cbn [join_comma length]. destruct x; [congruence|cbn; lia].
  - change (join_comma (x :: y :: L')) with (x ++ ","%char :: join_comma (y :: L')).
    rewrite length_app. specialize (IH HL). cbn [length] in IH |- *. lia.
Qed.

Lemma json_read_array_stringify : forall (l : list string) (rest : list ascii),
  json_read_array (list_ascii_of_string (json_stringify_strings l) ++ rest) = Some (l, rest).
Proof.
  intros l rest. unfold json_stringify_strings. rewrite list_ascii_of_string_of_list_ascii.
  destruct l as [|s l]; [reflexivity|].
  rewrite <- app_comm_cons, <- app_assoc. cbn [app].
  set (J := join_comma (map json_quote (s :: l))).
  assert (HJ : exists t, J = quote_char :: t).
  { subst J. destruct l as [|s' l'].
    - exists (flat_map json_escape_char (list_ascii_of_string s) ++ [quote_char]). reflexivity.
    - exists (flat_map json_escape_char (list_ascii_of_string s) ++ [quote_char]
              ++ ","%char :: join_comma (map json_quote (s' :: l'))).
      change (join_comma (map json_quote (s :: s' :: l')))
        with (json_quote s ++ ","%char :: join_comma (map json_quote (s' :: l'))).
      unfold json_quote. rewrite <- app_comm_cons, <- app_assoc. reflexivity. }
  assert (E : json_read_array ("["%char :: J ++ "]"%char :: rest)
              = json_read_elems (length (J ++ "]"%char :: rest)) (J ++ "]"%char :: rest)).
  { destruct HJ as [t Ht]. rewrite Ht. reflexivity. }
  rewrite E. apply json_read_elems_ok; [discriminate|].
  rewrite length_app. cbn [length].
  assert (HL : length (map json_quote (s :: l)) <= length J).
  { apply join_comma_length. apply Forall_forall. intros x Hx.
    apply in_map_iff in Hx as [y [<- _]]. unfold json_quote. discriminate. }
  rewrite length_map in HL. cbn [length] in HL. lia.
Qed.

Lemma list_ascii_of_string_append (a b : string) :
  list_ascii_of_string (a ++ b) = list_ascii_of_string a ++ list_ascii_of_string b.
Proof. induction a as [|c a IH]; cbn; [reflexivity|]. rewrite IH. reflexivity. Qed.

Lemma string_append_assoc (a b c : string) : (a ++ b ++ c = (a ++ b) ++ c)%string.
Proof. induction a as [|x a IH]; cbn; [reflexivity|]. rewrite IH. reflexivity. Qed.

(** X17: the JSON text [JSON.stringify] gives for an array of strings
    reads back, by JSON's grammar of arrays and string literals, as the
    same strings, leaving what follows it. *)
Theorem json_stringify_strings_roundtrip : forall (l : list string) (rest : list ascii),
  json_read_array (list_ascii_of_string (json_stringify_strings l) ++ rest) = Some (l, rest).
Proof. exact json_read_array_stringify. Qed.

(** X18: [addReviewers] issues exactly one [CreatePullRequestApprovalRule]
    call, on the PR's number, and fails exactly when that call rejects; the
    rule's content ends with the reviewers as a JSON array that reads back
    as the same reviewers, followed by [}]}]. *)
Theorem addReviewers_outcome : forall (xw : XWorld) (prNo : Z) (reviewers : list string),
  let cnt := approval_rule_contents reviewers in
  fst (addReviewers prNo reviewers xw)
  = (if x_failing (xremote xw) KCreatePrApprovalRule
     then XThrow (XErrRemote KCreatePrApprovalRule) else XOk tt)
  /\ snd (addReviewers prNo reviewers xw)
     = mkXWorld (base xw) (xremote xw) (xcalls xw ++ [CCreatePrApprovalRule (num_to_string prNo) cnt])
  /\ exists pre, list_ascii_of_string cnt
                 = pre ++ list_ascii_of_string (json_stringify_strings reviewers)
                       ++ list_ascii_of_string "}]}"
                 /\ json_read_array (skipn (length pre) (list_ascii_of_string cnt))
                    = Some (reviewers, list_ascii_of_string "}]}").
Proof.
  intros xw prNo reviewers cnt.
  split; [|split].
  - xrun. destruct (x_failing (xremote xw) KCreatePrApprovalRule); reflexivity.
  - xrun. destruct (x_failing (xremote xw) KCreatePrApprovalRule); reflexivity.
  - set (pre := list_ascii_of_string
                  ("{" ++ dq ++ "Version" ++ dq ++ ":" ++ dq ++ "2018-11-08" ++ dq ++ ","
                   ++ dq ++ "Statements" ++ dq ++ ": [{" ++ dq ++ "Type" ++ dq ++ ": " ++ dq
                   ++ "Approvers" ++ dq ++ "," ++ dq ++ "NumberOfApprovalsNeeded" ++ dq ++ ":"
                   ++ num_to_string (Z.of_nat (length reviewers)) ++ "," ++ dq
                   ++ "ApprovalPoolMembers" ++ dq ++ ": ")%string).
    assert (Hc : list_ascii_of_string cnt
                 = pre ++ list_ascii_of_string (json_stringify_strings reviewers)
                       ++ list_ascii_of_string "}]}").
    { subst cnt pre. unfold approval_rule_contents.
      rewrite <- !list_ascii_of_string_append. f_equal.
      rewrite !string_append_assoc. reflexivity. }
    exists pre. split; [exact Hc|].
    rewrite Hc, skipn_app, Nat.sub_diag, skipn_all. cbn [app skipn].
    apply json_read_array_stringify.
Qed.

(* ------------------------------------------------------------------ *)
(** ** [massageMarkdown] on plain text *)

Lemma re_replace_g_id (m : list ascii -> option nat) (rep : list ascii -> list ascii) :
  forall l, (forall k, m (skipn k l) = None) -> re_replace_g m rep l 0 = l.
Proof.
  induction l as [|c r IH]; intros H; [reflexivity|].
  cbn [re_replace_g]. specialize (H 0) as H0. cbn [skipn] in H0. rewrite H0.
  f_equal. apply IH. intros k. exact (H (S k)).
Qed.

Lemma re_replace_1_id (m : list ascii -> option nat) (rep : list ascii -> list ascii) :
  forall l, (forall k, m (skipn k l) = None) -> re_replace_1 m rep l = l.
Proof.
  induction l as [|c r IH]; intros H; [reflexivity|].
  cbn [re_replace_1]. specialize (H 0) as H0. cbn [skipn] in H0. rewrite H0.
  f_equal. apply IH. intros k. exact (H (S k)).
Qed.

Lemma re_replace_g_in (m : list ascii -> option nat) (rep : list ascii -> list ascii) :
  forall l p x, In x (re_replace_g m rep l p) -> In x l \/ exists y, In x (rep y).
Proof.
  induction l as [|c r IH]; intros p x H; cbn [re_replace_g] in H; [contradiction|].
  destruct p as [|p].
  - destruct (m (c :: r)) as [[|n]|].
    + destruct H as [<-|H]; [left; left; reflexivity|].
      destruct (IH 0 x H) as [H'|H']; [left; right; exact H'|right; exact H'].
    + apply in_app_or in H as [H|H]; [right; eauto|].
      destruct (IH n x H) as [H'|H']; [left; right; exact H'|right; exact H'].
    + destruct H as [<-|H]; [left; left; reflexivity|].
      destruct (IH 0 x H) as [H'|H']; [left; right; exact H'|right; exact H'].
  - destruct (IH p x H) as [H'|H']; [left; right; exact H'|right; exact H'].
Qed.

Lemma in_skipn_in {A} (x : A) k l : In x (skipn k l) -> In x l.
Proof. intros H. rewrite <- (firstn_skipn k l). apply in_or_app. right. exact H. Qed.

Lemma lprefix_head (c : ascii) (p : string) (l : list ascii) :
  lprefix (String c p) l = true -> exists l', l = c :: l'.
Proof.
  unfold lprefix. destruct l as [|d l']; cbn; [discriminate|].
  destruct (ascii_dec c d) as [<-|]; [eauto|discriminate].
Qed.

Lemma lt_free_lprefix (l : list ascii) :
  ~ In "<"%char l -> forall k p, lprefix (String "<"%char p) (skipn k l) = false.
Proof.
  intros H k p. destruct (lprefix (String "<"%char p) (skipn k l)) eqn:E; [|reflexivity].
  exfalso. apply lprefix_head in E as [l' E]. apply H. apply (in_skipn_in _ k).
  rewrite E. left. reflexivity.
Qed.

Lemma contains_lit_false (p : string) :
  forall l, contains_lit p l = false -> forall k, lprefix p (skipn k l) = false.
Proof.
  induction l as [|c r IH]; intros H k; cbn [contains_lit] in H;
    apply orb_false_iff in H as [H1 H2].
  - destruct k; exact H1.
  - destruct k as [|k]; [exact H1|]. exact (IH H2 k).
Qed.

Lemma find_map_none {A B} (f : A -> option B) (l : list A) :
  (forall x, f x = None) -> find_map f l = None.
Proof. intros H. induction l as [|x r IH]; cbn; [reflexivity|]. rewrite H. exact IH. Qed.

Lemma tag_no_match (tag : string) (l : list ascii) :
  ~ In "<"%char l -> forall k, tag_match tag (skipn k l) = None.
Proof.
  intros H k. unfold tag_match. cbn [append].
  rewrite !(lt_free_lprefix l H). reflexivity.
Qed.

Lemma rebase_check_no_match (l : list ascii) :
  ~ In "<"%char l -> forall k, rebase_check_match (skipn k l) = None.
Proof.
  intros H k. unfold rebase_check_match.
  destruct (lprefix _ (skipn k l)); [|reflexivity].
  apply find_map_none. intros i. rewrite !skipn_skipn.
  unfold rebase_check. rewrite (lt_free_lprefix l H). reflexivity.
Qed.

Lemma debug_no_match (l : list ascii) :
  ~ In "<"%char l -> forall k, debug_match (skipn k l) = None.
Proof.
  intros H k. unfold debug_match. rewrite (lt_free_lprefix l H). reflexivity.
Qed.

Lemma lit_no_match (p : string) (l : list ascii) :
  contains_lit p l = false -> forall k, lit_match p (skipn k l) = None.
Proof.
  intros H k. unfold lit_match. rewrite (contains_lit_false p l H). reflexivity.
Qed.

Lemma pull_link_rep_lt_free : forall y, ~ In "<"%char ((fun _ : list ascii => list_ascii_of_string pull_link_rep) y).
Proof.
  intros y H. vm_compute in H.
  repeat (destruct H as [H|H]; [discriminate H|]). exact H.
Qed.

(** X19: on a text with no [<] and without the rebase phrase,
    [massageMarkdown] only rewrites the links [](../pull/] to
    [](../../pull-requests/]; a text that has none of them either comes
    back unchanged. *)
Theorem massageMarkdown_plain_text : forall input : string,
  let l := list_ascii_of_string input in
  ~ In "<"%char l -> contains_lit rebase_phrase l = false ->
  massageMarkdown input
  = string_of_list_ascii
      (re_replace_g (lit_match pull_link) (fun _ => list_ascii_of_string pull_link_rep) l 0)
  /\ (contains_lit pull_link l = false -> massageMarkdown input = input).
Proof.
  intros input l Hlt Hph.
  assert (E : massageMarkdown input
              = string_of_list_ascii
                  (re_replace_g (lit_match pull_link)
                     (fun _ => list_ascii_of_string pull_link_rep) l 0)).
  { unfold massageMarkdown. fold l.
    rewrite (re_replace_1_id _ _ l (lit_no_match _ _ Hph)).
    rewrite (re_replace_g_id _ _ l (tag_no_match "summary" l Hlt)).
    rewrite (re_replace_g_id _ _ l (tag_no_match "details" l Hlt)).
    rewrite (re_replace_1_id _ _ l (rebase_check_no_match l Hlt)).
    rewrite re_replace_1_id; [reflexivity|].
    apply debug_no_match. intros Hin.
    destruct (re_replace_g_in _ _ l 0 _ Hin) as [H|[y H]];
      [exact (Hlt H)|exact (pull_link_rep_lt_free y H)]. }
  split; [exact E|].
  intros Hpl. rewrite E, (re_replace_g_id _ _ l (lit_no_match _ _ Hpl)).
  apply string_of_list_ascii_of_string.
Qed.

Lemma massageMarkdown_plain_text_witness :
  massageMarkdown "see ](../pull/12) now" = "see ](../../pull-requests/12) now".
Proof.
  rewrite (proj1 (massageMarkdown_plain_text "see ](../pull/12) now"
                    ltac:(intro H; vm_compute in H; repeat (destruct H as [H|H]; [discriminate H|]); exact H)
                    ltac:(vm_compute; reflexivity))).
  vm_compute. reflexivity.
Defined.

(* ------------------------------------------------------------------ *)
(** ** [createPr] then [getPr] *)

Lemma assoc_app_none {B} (k : string) (l : list (string * B)) (v : B) :
  assoc k l = None -> assoc k (l ++ [(k, v)]) = Some v.
Proof.
  induction l as [|[k' v'] r IH]; cbn; intros H.
  - rewrite String.eqb_refl. reflexivity.
  - destruct (String.eqb k k'); [discriminate|]. exact (IH H).
Qed.

(** X20: a PR created by [createPr] with a non-empty title is returned
    as open, numbered by the identifier the service gave it, with the
    branches and title as given and the configured repository as
    [sourceRepo]; a [getPr] of that number right after finds it, open,
    with the same number and title, but with no [sourceRepo]. *)
Theorem createPr_then_getPr :
  forall (w : World) (src dst t body : string),
  t <> "" ->
  failing (remote w) KCreatePr = false ->
  failing (remote w) KGetPr = false ->
  assoc (fresh_id (remote w)) (r_prs (remote w)) = None ->
  let n := Z.of_nat (r_next (remote w)) in
  result_of (createPr src dst (Some t) body) w
  = Ok (mkPr (Some n) (Some src) (Some dst) (Some t) Open None (repository (cfg w)))
  /\ exists p, result_of (getPr n) (snd (createPr src dst (Some t) body w)) = Ok (Some p)
     /\ number p = Some n /\ title p = Some t /\ state p = Open /\ sourceRepo p = None.
Proof.
  intros w src dst t body Ht Hc Hg Ha n.
  unfold result_of, createPr, bind, get_secrets, get_cfg, client_createPr.
  rewrite remote_call_ok by exact Hc. cbn [fst snd].
  destruct t as [|c0 t']; [congruence|].
  destruct (fresh_id (remote w)) as [|a s] eqn:E.
  { exfalso. pose proof (parse_num_to_string n) as P.
    change (num_to_string n) with (fresh_id (remote w)) in P. rewrite E in P. discriminate P. }
  cbn [pr_title pullRequestId]. split.
  - cbn [fst]. rewrite <- E. unfold fresh_id. fold n. rewrite parse_num_to_string. reflexivity.
  - cbn [snd]. unfold getPr, bind, client_getPr.
    rewrite remote_call_ok by exact Hg. cbn [fst snd remote with_remote bump r_prs].
    change (num_to_string n) with (fresh_id (remote w)). rewrite E.
    unfold ret. cbn [fst snd remote with_remote bump r_prs].
    rewrite assoc_app_none by exact Ha.
    eexists. split; [reflexivity|]. cbn. repeat split.
Qed.

Lemma createPr_then_getPr_witness :
  exists p, result_of (getPr 100) (snd (createPr "feature" "main" (Some "Update") "body"
                                         (mk_world empty_cfg scenario_remote))) = Ok (Some p)
  /\ number p = Some 100%Z /\ title p = Some "Update" /\ state p = Open /\ sourceRepo p = None.
Proof.
  exact (proj2 (createPr_then_getPr (mk_world empty_cfg scenario_remote) "feature" "main"
                  "Update" "body" ltac:(discriminate) eq_refl eq_refl eq_refl)).
Defined.

(* ------------------------------------------------------------------ *)
(** ** The create path of [ensureComment] *)

(** X21: when the scan stops at no thread and the PR's first event names
    both commits, [ensureComment] reads the comments and the events and
    creates one thread with the composed body on those commits, which is
    its only write, and returns [true]. *)
Theorem ensureComment_create_path :
  forall (w : World) (number : Z) (topic : option string) (cont before after : string)
         (data : list CommentsObj) (ev : PullRequestEvent) (evs : list PullRequestEvent),
  let body := (comment_header topic ++ sanitize (secrets w) cont)%string in
  failing (remote w) KGetPrComments = false ->
  failing (remote w) KGetPrEvents = false ->
  failing (remote w) KCreatePrComment = false ->
  assoc (num_to_string number) (r_comments (remote w)) = Some data ->
  scan_threads topic (comment_header topic) body data = ScanNone ->
  assoc (num_to_string number) (r_events (remote w)) = Some (ev :: evs) ->
  pullRequestSourceReferenceUpdatedEventMetadata ev
    = Some (mkSourceRefUpdated (Some before) (Some after)) ->
  before <> "" -> after <> "" ->
  result_of (ensureComment number topic cont) w = Ok true
  /\ calls_of (ensureComment number topic cont) w
     = calls w ++ [CGetPrComments (repository (cfg w)) (num_to_string number);
                   CGetPrEvents (num_to_string number);
                   CCreatePrComment (num_to_string number) (repository (cfg w)) body before after].
Proof.
  intros w number topic cont before after data ev evs body Hf He Hc Ha Hs Hev Hm Hb Haf.
  unfold result_of, calls_of, ensureComment, bind, get_secrets, get_cfg, catch_, ret.
  cbv beta iota zeta. unfold client_getPrComments.
  rewrite remote_call_ok by exact Hf. cbn [fst snd]. rewrite Ha.
  subst body. rewrite Hs. cbn [truthy negb].
  unfold client_getPrEvents. rewrite remote_call_ok by exact He.
  cbn [fst snd remote with_remote]. rewrite Hev, Hm.
  destruct before as [|b1 b2]; [congruence|]. destruct after as [|a1 a2]; [congruence|].
  unfold client_createPrComment. rewrite remote_call_ok by exact Hc.
  cbn. rewrite <- !app_assoc. split; reflexivity.
Qed.

Lemma ensureComment_create_path_witness :
  calls_of (ensureComment 7 (Some "t") "new") (comments_world [])
  = [CGetPrComments (Some "someRepo") "7"; CGetPrEvents "7";
     CCreatePrComment "7" (Some "someRepo") ("### t" ++ nl ++ nl ++ "new")%string "before" "after"].
Proof.
  exact (proj2 (ensureComment_create_path (comments_world []) 7 (Some "t") "new" "before" "after"
                  [] topic_event [] eq_refl eq_refl eq_refl eq_refl eq_refl eq_refl eq_refl
                  ltac:(discriminate) ltac:(discriminate))).
Defined.

(** X22: when the comment listing rejects, [ensureComment] returns
    [false] and issues no other call. *)
Theorem ensureComment_listing_failure : forall (w : World) (number : Z) (topic : option string)
  (cont : string),
  failing (remote w) KGetPrComments = true ->
  result_of (ensureComment number topic cont) w = Ok false
  /\ calls_of (ensureComment number topic cont) w
     = calls w ++ [CGetPrComments (repository (cfg w)) (num_to_string number)].
Proof.
  intros w number topic cont Hf.
  unfold result_of, calls_of, ensureComment, bind, get_secrets, get_cfg, catch_, ret.
  cbv beta iota zeta. unfold client_getPrComments.
  rewrite remote_call_fail by exact Hf. split; reflexivity.
Qed.

Lemma ensureComment_listing_failure_witness :
  result_of (ensureComment 7 (Some "t") "new") (mk_world empty_cfg comments_down_remote) = Ok false.
Proof.
  exact (proj1 (ensureComment_listing_failure (mk_world empty_cfg comments_down_remote) 7
                  (Some "t") "new" eq_refl)).
Defined.

(* ------------------------------------------------------------------ *)
(** ** [ensureCommentRemoval] *)

(** X23: [ensureCommentRemoval] reads the PR's comments and then deletes
    at most one comment, the one the scan targets in the listed threads;
    it returns normally unless that delete call rejects, a failed comment
    listing included. *)
Theorem ensureCommentRemoval_at_most_one_delete : forall (w : World) (k : RemovalConfig),
  let pre := calls w ++ [CGetPrComments (repository (cfg w)) (num_to_string (removal_prNo k))] in
  (result_of (ensureCommentRemoval k) w = Ok tt
   \/ (result_of (ensureCommentRemoval k) w = Throw (ErrRemote KDeleteComment)
       /\ failing (remote w) KDeleteComment = true))
  /\ (calls_of (ensureCommentRemoval k) w = pre
      \/ exists id data,
           failing (remote w) KGetPrComments = false
           /\ assoc (num_to_string (removal_prNo k)) (r_comments (remote w)) = Some data
           /\ removal_target k data = Some id
           /\ calls_of (ensureCommentRemoval k) w = pre ++ [CDeleteComment id]).
Proof.
  intros w k pre. subst pre.
  unfold result_of, calls_of, ensureCommentRemoval, bind, get_cfg, catch_, ret.
  unfold client_getPrComments.
  destruct (failing (remote w) KGetPrComments) eqn:Ef.
  { rewrite remote_call_fail by exact Ef. cbn. split; left; reflexivity. }
  rewrite remote_call_ok by exact Ef. cbn [fst snd].
  destruct (assoc (num_to_string (removal_prNo k)) (r_comments (remote w))) as [data|] eqn:Ea;
    [|cbn; split; left; reflexivity].
  destruct (removal_target k data) as [id|] eqn:Et; [|cbn; split; left; reflexivity].
  unfold client_deleteComment.
  destruct (failing (remote w) KDeleteComment) eqn:Ed.
  - rewrite remote_call_fail by exact Ed. cbn. split.
    + right. split; reflexivity.
    + right. exists id, data. rewrite <- app_assoc. repeat split; assumption || reflexivity.
  - rewrite remote_call_ok by exact Ed. cbn. split.
    + left. reflexivity.
    + right. exists id, data. rewrite <- app_assoc. repeat split; assumption || reflexivity.
Qed.

(* ------------------------------------------------------------------ *)
(** ** [findPr] *)

(** X24: [findPr] never throws: when reading the PR list fails (a
    rejected listing or fetch, or a record without targets) it returns
    [null]. *)
Theorem findPr_never_throws : forall (w : World) (b : string) (t : option string) (st : PrState),
  (exists o, result_of (findPr b t st) w = Ok o)
  /\ (forall e, result_of getPrList w = Throw e -> result_of (findPr b t st) w = Ok None).
Proof.
  intros w b t st. unfold result_of, findPr, catch_, bind, ret.
  destruct (getPrList w) as [[l|e] w'] eqn:E; cbn [fst].
  - split; [eauto|]. intros e H. discriminate H.
  - split; [eauto|]. intros e' _. reflexivity.
Qed.

Lemma findPr_never_throws_witness :
  result_of (findPr "feature" None Open) (mk_world empty_cfg listing_down_remote) = Ok None.
Proof.
  exact (proj2 (findPr_never_throws (mk_world empty_cfg listing_down_remote) "feature" None Open)
           (ErrRemote KListPullRequests) eq_refl).
Defined.

(* ------------------------------------------------------------------ *)
(** ** [initPlatform] without credentials *)

(** X25: when the access key or the secret resolves to nothing (neither
    a non-empty argument nor the environment variable), [initPlatform]
    throws the configuration error before any remote call and leaves the
    session, [config] included, as it was. *)
Theorem initPlatform_missing_credentials :
  forall (w : World) (endpoint username password : option string),
  truthy (if truthy username then username else AWS_ACCESS_KEY_ID (env w)) = false
  \/ truthy (if truthy password then password else AWS_SECRET_ACCESS_KEY (env w)) = false ->
  initPlatform endpoint username password w = (Throw (ErrMessage init_error), w).
Proof.
  intros w endpoint username password H.
  unfold initPlatform, bind, get_env, throw. cbv beta iota zeta.
  destruct H as [H|H]; rewrite H; cbn [negb orb]; [reflexivity|].
  destruct (truthy (if truthy username then username else AWS_ACCESS_KEY_ID (env w)));
    reflexivity.
Qed.

Lemma initPlatform_missing_credentials_witness :
  initPlatform None None None (mk_world empty_cfg scenario_remote)
  = (Throw (ErrMessage init_error), mk_world empty_cfg scenario_remote).
Proof.
  exact (initPlatform_missing_credentials (mk_world empty_cfg scenario_remote) None None None
           (or_introl eq_refl)).
Defined.

(* ------------------------------------------------------------------ *)
(** ** The default endpoint and [parse_region] *)

Lemma find_map_none_in {A B} (f : A -> option B) (l : list A) :
  (forall x, In x l -> f x = None) -> find_map f l = None.
Proof.
  induction l as [|x r IH]; intros H; cbn; [reflexivity|].
  rewrite (H x (or_introl eq_refl)). apply IH. intros y Hy. exact (H y (or_intror Hy)).
Qed.

(** [find_map] over the candidates in decreasing order takes the largest
    one that succeeds. *)
Lemma find_map_rev_seq_last {B} (f : nat -> option B) (a n x0 : nat) (y : B) :
  a <= x0 < a + n -> f x0 = Some y -> (forall x, x0 < x -> f x = None) ->
  find_map f (rev (seq a n)) = Some y.
Proof.
  revert x0. induction n as [|n IH]; intros x0 Hr Hx Hgt; [lia|].
  rewrite seq_S, rev_app_distr. cbn [rev app find_map].
  destruct (Nat.eq_dec x0 (a + n)) as [->|Hne]; [rewrite Hx; reflexivity|].
  rewrite (Hgt (a + n)) by lia. apply (IH x0); [lia|exact Hx|exact Hgt].
Qed.

Lemma lprefix_app_self (p : string) (x : list ascii) :
  lprefix p (list_ascii_of_string p ++ x) = true.
Proof.
  unfold lprefix.
  replace (string_of_list_ascii (list_ascii_of_string p ++ x))
    with (p ++ string_of_list_ascii x)%string.
  - apply prefix_app.
  - induction p as [|c p IH]; cbn; [reflexivity|]. rewrite IH. reflexivity.
Qed.

Lemma lprefix_nth (p : string) (l : list ascii) :
  lprefix p l = true ->
  forall k, k < String.length p -> nth_error l k = String.get k p.
Proof.
  unfold lprefix. revert l. induction p as [|c p IH]; intros l H k Hk; [cbn in Hk; lia|].
  destruct l as [|d l]; cbn in H; [discriminate|].
  destruct (ascii_dec c d) as [<-|]; [|discriminate].
  destruct k as [|k]; [reflexivity|]. cbn. apply IH; [exact H|cbn in Hk; lia].
Qed.

Lemma aws_region_char_not_term (c : ascii) : aws_region_char c = true -> is_line_terminator c = false.
Proof.
  unfold aws_region_char, is_line_terminator. intros H.
  destruct (Nat.eqb (nat_of_ascii c) 10) eqn:E1; [apply Nat.eqb_eq in E1; rewrite E1 in H; discriminate|].
  destruct (Nat.eqb (nat_of_ascii c) 13) eqn:E2; [apply Nat.eqb_eq in E2; rewrite E2 in H; discriminate|].
  reflexivity.
Qed.

Lemma dot_run_app (R S : list ascii) :
  forallb aws_region_char R = true -> dot_run (R ++ S) = length R + dot_run S.
Proof.
  induction R as [|c R IH]; intros H; [reflexivity|].
  cbn in H. apply andb_prop in H as [Hc HR]. cbn [app dot_run length].
  rewrite (aws_region_char_not_term c Hc). rewrite (IH HR). reflexivity.
Qed.

Lemma amz_later (d : nat) : 1 <= d -> lprefix ".amazonaws.com" (skipn d amz_suffix) = false.
Proof.
  intros Hd. do 16 (destruct d as [|d]; [try lia; reflexivity|]).
  destruct d; reflexivity.
Qed.

Section DefaultEndpoint.

Variable rg : string.
Hypothesis Hchars : forallb aws_region_char (list_ascii_of_string rg) = true.
Hypothesis Hne : rg <> "".

Lemma endpoint_list : (list_ascii_of_string ("https://git-codecommit." ++ rg ++ ".amazonaws.com/")) = list_ascii_of_string "https://git-codecommit." ++ (list_ascii_of_string rg) ++ amz_suffix.
Proof.
  unfold amz_suffix. rewrite !list_ascii_of_string_append. reflexivity.
Qed.

Lemma region_nth_not_dot (k : nat) :
  k < length (list_ascii_of_string rg) -> nth_error (list_ascii_of_string rg) k <> Some "."%char.
Proof.
  intros Hk Hn. assert (Hin : In "."%char (list_ascii_of_string rg)) by (eapply nth_error_In; exact Hn).
  pose proof (proj1 (forallb_forall _ _) Hchars _ Hin) as Hc. discriminate Hc.
Qed.

Lemma amz_only_at_end (q : nat) :
  length (list_ascii_of_string rg) < q -> lprefix ".amazonaws.com" (skipn q ((list_ascii_of_string rg) ++ amz_suffix)) = false.
Proof.
  intros Hq. rewrite skipn_app, skipn_all2 by lia. cbn [app].
  apply amz_later. lia.
Qed.

Lemma amz_not_inside (q : nat) :
  q < length (list_ascii_of_string rg) -> lprefix ".amazonaws.com" (skipn q ((list_ascii_of_string rg) ++ amz_suffix)) = false.
Proof.
  intros Hq. destruct (lprefix _ _) eqn:E; [|reflexivity]. exfalso.
  pose proof (lprefix_nth _ _ E 0 ltac:(cbn; lia)) as H0. cbn [String.get] in H0.
  rewrite nth_error_skipn, nth_error_app1 in H0 by lia.
  apply (region_nth_not_dot (q + 0)); [lia|exact H0].
Qed.

Lemma codecommit_dot_position (o : nat) :
  lprefix "codecommit." (skipn o ((list_ascii_of_string rg) ++ amz_suffix)) = true -> length (list_ascii_of_string rg) <= o + 10.
Proof.
  intros E. destruct (Nat.le_gt_cases (length (list_ascii_of_string rg)) (o + 10)) as [H|H]; [exact H|exfalso].
  pose proof (lprefix_nth _ _ E 10 ltac:(cbn; lia)) as H10. cbn [String.get] in H10.
  rewrite nth_error_skipn, nth_error_app1 in H10 by lia.
  apply (region_nth_not_dot (o + 10)); [lia|exact H10].
Qed.

Lemma dot_run_https (X : list ascii) :
  dot_run (list_ascii_of_string "https://git-codecommit." ++ X) = 23 + dot_run X.
Proof. reflexivity. Qed.

Lemma skipn_https (X : list ascii) :
  skipn 12 (list_ascii_of_string "https://git-codecommit." ++ X)
  = list_ascii_of_string "codecommit." ++ X.
Proof. reflexivity. Qed.

Lemma skipn_codecommit (X : list ascii) : skipn 11 (list_ascii_of_string "codecommit." ++ X) = X.
Proof. reflexivity. Qed.

Lemma region_match_endpoint : region_match_at (list_ascii_of_string ("https://git-codecommit." ++ rg ++ ".amazonaws.com/")) = Some (list_ascii_of_string rg).
Proof.
  unfold region_match_at. rewrite endpoint_list.
  apply (find_map_rev_seq_last _ 0 _ 12).
  - split; [lia|]. rewrite dot_run_https, dot_run_app by exact Hchars. lia.
  - cbv beta zeta. rewrite skipn_https, lprefix_app_self, skipn_codecommit.
    apply (find_map_rev_seq_last _ 1 _ (length (list_ascii_of_string rg))).
    + destruct rg as [|c s]; [congruence|]. split; [cbn; lia|].
      rewrite dot_run_app by exact Hchars. cbn. lia.
    + rewrite skipn_app, skipn_all, Nat.sub_diag. cbn [app skipn].
      rewrite firstn_app, firstn_all, Nat.sub_diag. cbn [firstn]. rewrite app_nil_r.
      reflexivity.
    + intros x Hx. rewrite amz_only_at_end by exact Hx. reflexivity.
  - intros i Hi.
    destruct (Nat.le_gt_cases 23 i) as [H23|H23].
    + rewrite skipn_app, skipn_all2 by (cbn; lia). cbn [app].
      replace (length (list_ascii_of_string "https://git-codecommit.")) with 23 by reflexivity.
      destruct (lprefix "codecommit." (skipn (i - 23) ((list_ascii_of_string rg) ++ amz_suffix))) eqn:E; [|reflexivity].
      apply codecommit_dot_position in E.
      apply find_map_none_in. intros j Hj.
      apply in_rev, in_seq in Hj.
      rewrite !skipn_skipn. rewrite amz_only_at_end by lia. reflexivity.
    + assert (Hcases : i = 13 \/ i = 14 \/ i = 15 \/ i = 16 \/ i = 17 \/ i = 18 \/ i = 19
                       \/ i = 20 \/ i = 21 \/ i = 22) by lia.
      repeat destruct Hcases as [->|Hcases]; try (subst i); reflexivity.
Qed.

Lemma parse_region_endpoint :
  parse_region ("https://git-codecommit." ++ rg ++ ".amazonaws.com/") = Some rg.
Proof.
  unfold parse_region. cbn [seq find_map skipn]. rewrite region_match_endpoint.
  cbn [option_map]. rewrite string_of_list_ascii_of_string. reflexivity.
Qed.

End DefaultEndpoint.

(** X26: the default endpoint [initPlatform] returns for a region,
    [https://git-codecommit.<region>.amazonaws.com/], parses back to that
    region by the expression [initPlatform] applies to a given endpoint,
    for every non-empty region name of lower-case letters, digits and
    [-]. *)
Theorem parse_region_default_endpoint : forall rg : string,
  forallb aws_region_char (list_ascii_of_string rg) = true -> rg <> "" ->
  parse_region ("https://git-codecommit." ++ rg ++ ".amazonaws.com/") = Some rg.
Proof. intros rg H1 H2. exact (parse_region_endpoint rg H1 H2). Qed.

Lemma parse_region_default_endpoint_witness :
  parse_region "https://git-codecommit.eu-west-1.amazonaws.com/" = Some "eu-west-1".
Proof.
  exact (parse_region_default_endpoint "eu-west-1" eq_refl ltac:(discriminate)).
Defined.

Lemma getUserArn_env_free (w1 w2 : World) :
  cfg w1 = cfg w2 -> remote w1 = remote w2 -> calls w1 = calls w2 ->
  fst (getUserArn w1) = fst (getUserArn w2)
  /\ cfg (snd (getUserArn w1)) = cfg (snd (getUserArn w2))
  /\ calls (snd (getUserArn w1)) = calls (snd (getUserArn w2)).
Proof.
  intros Hc Hr Hl.
  unfold getUserArn, bind, catch_, iam_getUser, remote_call, ret, throw.
  rewrite <- Hr, <- Hl. cbn [remote calls cfg with_remote].
  cbv beta iota zeta. cbn [kind_of].
  destruct (failing (remote w1) KGetUser); cbn; [repeat split; congruence|].
  destruct (r_iam (remote w1)) as [a|m]; cbn; [repeat split; congruence|].
  destruct (user_re_exec (list_ascii_of_string m)); cbn; repeat split; congruence.
Qed.

(** X27: passing the default endpoint of a region explicitly,
    [https://git-codecommit.<region>.amazonaws.com/], has the outcome of
    passing no endpoint with [AWS_REGION] set to that region: the same
    result (the same endpoint returned), [config] and calls. *)
Theorem initPlatform_explicit_default_endpoint :
  forall (w : World) (username password : option string) (rg : string),
  forallb aws_region_char (list_ascii_of_string rg) = true -> rg <> "" ->
  let ep := ("https://git-codecommit." ++ rg ++ ".amazonaws.com/")%string in
  let w0 := set_env_region (Some rg) w in
  result_of (initPlatform (Some ep) username password) w
  = result_of (initPlatform None username password) w0
  /\ cfg (snd (initPlatform (Some ep) username password w))
     = cfg (snd (initPlatform None username password w0))
  /\ calls (snd (initPlatform (Some ep) username password w))
     = calls (snd (initPlatform None username password w0)).
Proof.
  intros w username password rg Hch Hne ep w0.
  assert (Ht : truthy (Some ep) = true) by reflexivity.
  unfold result_of, initPlatform, bind, get_env. cbv beta iota zeta.
  subst w0. rewrite Ht. cbn [opt_bind]. subst ep.
  rewrite (parse_region_endpoint rg Hch Hne).
  cbn [truthy AWS_REGION AWS_ACCESS_KEY_ID AWS_SECRET_ACCESS_KEY AWS_SESSION_TOKEN env
       set_env_region].
  match goal with |- context [if (?a || ?b || ?c) then _ else _] => destruct (a || b || c) end.
  { cbn. repeat split; reflexivity. }
  unfold modify_cfg, ret. cbn [cfg env secrets remote calls set_env_region].
  match goal with |- context [getUserArn ?W1] =>
    match goal with |- context [getUserArn ?W2] =>
      tryif constr_eq W1 W2 then fail else
      (pose proof (getUserArn_env_free W1 W2 eq_refl eq_refl eq_refl) as [G1 [G2 G3]];
       destruct (getUserArn W1) as [r1 w1'], (getUserArn W2) as [r2 w2'])
    end
  end.
  cbn [fst snd] in G1, G2, G3. subst r2.
  destruct r1; cbn; repeat split; congruence.
Qed.

Lemma initPlatform_explicit_default_endpoint_witness :
  result_of (initPlatform (Some "https://git-codecommit.eu-west-1.amazonaws.com/") None None)
    (mkWorld empty_cfg region_env [] scenario_remote [])
  = result_of (initPlatform None None None)
      (set_env_region (Some "eu-west-1") (mkWorld empty_cfg region_env [] scenario_remote [])).
Proof.
  exact (proj1 (initPlatform_explicit_default_endpoint
                  (mkWorld empty_cfg region_env [] scenario_remote []) None None "eu-west-1"
                  eq_refl ltac:(discriminate))).
Defined.
